(** * Firewall Rules Management System: a shallow embedding

    The development follows [firewall-rules-management.py].  Python [str]
    values are sequences of Unicode code points, effects (sub-processes, the
    log, the console, the snapshot file) are threaded through an explicit
    world, and Python exceptions are an error result. *)

From Stdlib Require Import List ZArith NArith Lia Bool String Ascii.
Import ListNotations.

Set Implicit Arguments.
Set Warnings "-register-all".

(** Python's [len] on a list. *)
Definition len {A : Type} (l : list A) : nat := List.length l.

(** ** Python strings *)

Module PyStr.

Definition char := N.
Definition str := list char.

(** An ASCII literal of the source, as code points. *)
Definition lit (s : string) : str := map N_of_ascii (list_ascii_of_string s).

Definition ch (a : ascii) : char := N_of_ascii a.

Arguments lit s : simpl never.

Fixpoint eqb (a b : str) : bool :=
  match a, b with
  | [], [] => true
  | x :: a', y :: b' => N.eqb x y && eqb a' b'
  | _, _ => false
  end.

Definition mem (c : char) (s : str) : bool := existsb (N.eqb c) s.

(** [s.split(sep)] for a one-character separator: the head piece and the
    pieces after it; the result of [split] is never empty. *)
Fixpoint split1 (sep : char) (s : str) : str * list str :=
  match s with
  | [] => ([], [])
  | c :: s' =>
      let (p, ps) := split1 sep s' in
      if N.eqb c sep then ([], p :: ps) else (c :: p, ps)
  end.

Definition split (sep : char) (s : str) : list str :=
  let (p, ps) := split1 sep s in p :: ps.

(** [str.isspace] on one code point, the separator class of [s.split()]. *)
Definition isspace (c : char) : bool :=
  ((9 <=? c) && (c <=? 13) || (28 <=? c) && (c <=? 32)
   || (c =? 133) || (c =? 160) || (c =? 5760)
   || (8192 <=? c) && (c <=? 8202)
   || (c =? 8232) || (c =? 8233) || (c =? 8239) || (c =? 8287)
   || (c =? 12288))%N.

(** [s.split()]: the maximal runs of non-space characters. *)
Fixpoint fields1 (s : str) : str * list str :=
  match s with
  | [] => ([], [])
  | c :: s' =>
      let (w, ws) := fields1 s' in
      if isspace c
      then ([], match w with [] => ws | _ => w :: ws end)
      else (c :: w, ws)
  end.

Definition split_ws (s : str) : list str :=
  let (w, ws) := fields1 s in
  match w with [] => ws | _ => w :: ws end.

Definition is_ascii_digit (c : char) : bool := ((48 <=? c) && (c <=? 57))%N.

Definition digit_val (c : char) : N := (c - 48)%N.

(** [int(s, 10)] on a string of ASCII digits. *)
Definition int10 (s : str) : N :=
  fold_left (fun acc c => (acc * 10 + digit_val c)%N) s 0%N.

(** The decimal digits of [n], least significant first; [fuel] bounds their
    number. *)
Fixpoint digits_le (fuel : nat) (n : N) : str :=
  match fuel with
  | O => []
  | S fuel' =>
      (48 + n mod 10)%N
      :: (if (n / 10 =? 0)%N then [] else digits_le fuel' (n / 10)%N)
  end.

(** [str(n)] for a natural number: it has no more decimal than binary
    digits. *)
Definition dec (n : N) : str := rev (digits_le (S (N.to_nat (N.log2 n))) n).

(** [str(n)] for an [int]. *)
Definition str_of_int (z : Z) : str :=
  if (z <? 0)%Z then 45%N :: dec (Z.abs_N z) else dec (Z.to_N z).

(** A Unicode scalar value: a code point that is no surrogate.  Text decoded
    from bytes holds nothing else. *)
Definition scalar (c : char) : bool :=
  ((c <? 55296) || (57344 <=? c) && (c <? 1114112))%N.

Definition hex_val (c : char) : option N :=
  if is_ascii_digit c then Some (c - 48)%N
  else if ((97 <=? c) && (c <=? 102))%N then Some (c - 87)%N
  else if ((65 <=? c) && (c <=? 70))%N then Some (c - 55)%N
  else None.

(** [int(s, 16)] on a string of hexadecimal digits ([None] otherwise, and on
    the empty string). *)
Definition int16 (s : str) : option N :=
  match s with
  | [] => None
  | _ => fold_left (fun acc c =>
                      match acc, hex_val c with
                      | Some a, Some d => Some (a * 16 + d)%N
                      | _, _ => None
                      end) s (Some 0%N)
  end.

Definition hex_digit (d : N) : char := (if d <? 10 then 48 + d else 87 + d)%N.

(** ['{0:04x}'.format(n)] for [n < 65536]. *)
Definition hex4 (n : N) : str :=
  [hex_digit (N.shiftr n 12 mod 16); hex_digit (N.shiftr n 8 mod 16);
   hex_digit (N.shiftr n 4 mod 16); hex_digit (n mod 16)]%N.

Fixpoint strip_zeros (s : str) : str :=
  match s with
  | c :: (_ :: _) as s' => if N.eqb c 48 then strip_zeros s' else s
  | _ => s
  end.

(** ['%x' % n] for [n < 65536]. *)
Definition hex (n : N) : str := strip_zeros (hex4 n).

End PyStr.

Import PyStr.

(** ** The [ipaddress] module, as far as [ip_address] on a [str] goes

    [None] stands for the [AddressValueError] (a [ValueError]) of the
    library. *)

Module ipaddress.

(** [IPv4Address._parse_octet], with the ban on leading zeros of CPython
    3.9.5 and later. *)
Definition parse_octet (octet_str : str) : option N :=
  match octet_str with
  | [] => None
  | c :: _ =>
      if negb (forallb is_ascii_digit octet_str) then None
      else if (3 <? len octet_str)%nat then None
      else if negb (PyStr.eqb octet_str (lit "0")) && N.eqb c 48 then None
      else let octet_int := int10 octet_str in
           if (255 <? octet_int)%N then None else Some octet_int
  end.

Fixpoint parse_octets (octets : list str) : option (list N) :=
  match octets with
  | [] => Some []
  | o :: os =>
      match parse_octet o, parse_octets os with
      | Some n, Some ns => Some (n :: ns)
      | _, _ => None
      end
  end.

(** [int.from_bytes(..., 'big')] *)
Definition from_bytes (bs : list N) : N :=
  fold_left (fun acc b => (acc * 256 + b)%N) bs 0%N.

(** [IPv4Address._ip_int_from_string] *)
Definition ipv4_int_from_string (ip_str : str) : option N :=
  match ip_str with
  | [] => None
  | _ =>
      let octets := split (ch ".") ip_str in
      if negb (len octets =? 4)%nat then None
      else option_map from_bytes (parse_octets octets)
  end.

(** [IPv4Address(address)] for a [str] *)
Definition IPv4Address (address : str) : option N :=
  if mem (ch "/") address then None else ipv4_int_from_string address.

(** [IPv6Address._parse_hextet] *)
Definition parse_hextet (hextet_str : str) : option N :=
  if (4 <? len hextet_str)%nat then None else int16 hextet_str.

(** The loop looking for ['::'] strictly between the end points: the index
    of the one empty part there, [Some None] when there is none, [None] when
    there are two. *)
Fixpoint find_skip (i : nat) (middle : list str) (skip_index : option nat)
  : option (option nat) :=
  match middle with
  | [] => Some skip_index
  | p :: ps =>
      match p with
      | [] => match skip_index with
              | Some _ => None
              | None => find_skip (S i) ps (Some i)
              end
      | _ => find_skip (S i) ps skip_index
      end
  end.

Definition is_empty (s : str) : bool := match s with [] => true | _ => false end.

Fixpoint parse_hextets (ps : list str) (ip_int : N) : option N :=
  match ps with
  | [] => Some ip_int
  | p :: ps' =>
      match parse_hextet p with
      | Some h => parse_hextets ps' (N.lor (N.shiftl ip_int 16) h)
      | None => None
      end
  end.

(** [IPv6Address._ip_int_from_string] *)
Definition ipv6_int_from_string (ip_str : str) : option N :=
  match ip_str with
  | [] => None
  | _ =>
  let parts := split (ch ":") ip_str in
  if (len parts <? 3)%nat then None else
  let parts' :=
    if mem (ch ".") (last parts [])
    then match IPv4Address (last parts []) with
         | None => None
         | Some ipv4_int =>
             Some (removelast parts
                   ++ [hex (N.land (N.shiftr ipv4_int 16) 65535);
                       hex (N.land ipv4_int 65535)])
         end
    else Some parts in
  match parts' with
  | None => None
  | Some parts =>
  if (9 <? len parts)%nat then None else
  match find_skip 1 (removelast (tl parts)) None with
  | None => None
  | Some (Some skip_index) =>
      let parts_hi := skip_index in
      let parts_lo := (len parts - skip_index - 1)%nat in
      let hi_lead := is_empty (hd [] parts) in
      let lo_trail := is_empty (last parts []) in
      let parts_hi' := if hi_lead then (parts_hi - 1)%nat else parts_hi in
      let parts_lo' := if lo_trail then (parts_lo - 1)%nat else parts_lo in
      if hi_lead && negb (parts_hi' =? 0)%nat then None
      else if lo_trail && negb (parts_lo' =? 0)%nat then None
      else if (8 <? parts_hi' + parts_lo' + 1)%nat then None
      else
        let parts_skipped := (8 - (parts_hi' + parts_lo'))%nat in
        match parse_hextets (firstn parts_hi' parts) 0%N with
        | None => None
        | Some hi =>
            parse_hextets (skipn (len parts - parts_lo') parts)
                          (N.shiftl hi (16 * N.of_nat parts_skipped))
        end
  | Some None =>
      if negb (len parts =? 8)%nat then None
      else if is_empty (hd [] parts) then None
      else if is_empty (last parts []) then None
      else parse_hextets parts 0%N
  end
  end
  end.

(** [IPv6Address._split_scope_id]: [ip_str.partition('%')] and its checks. *)
Definition split_scope_id (ip_str : str) : option (str * option str) :=
  match split (ch "%") ip_str with
  | [addr] => Some (addr, None)
  | addr :: scope_id :: [] =>
      match scope_id with
      | [] => None
      | _ => Some (addr, Some scope_id)
      end
  | _ => None
  end.

(** [IPv6Address(address)] for a [str] *)
Definition IPv6Address (address : str) : option (N * option str) :=
  if mem (ch "/") address then None
  else match split_scope_id address with
       | None => None
       | Some (addr_str, scope_id) =>
           option_map (fun n => (n, scope_id)) (ipv6_int_from_string addr_str)
       end.

Inductive ip_object := V4 (ip : N) | V6 (ip : N) (scope_id : option str).

(** [ipaddress.ip_address(address)]: the IPv4 parser, then the IPv6 one;
    [None] is the final [ValueError]. *)
Definition ip_address (address : str) : option ip_object :=
  match IPv4Address address with
  | Some n => Some (V4 n)
  | None =>
      match IPv6Address address with
      | Some (n, sc) => Some (V6 n sc)
      | None => None
      end
  end.

End ipaddress.

(** ** [datetime]: naive local date-times *)

Module datetime.

Record t := mk
  { year : N; month : N; day : N;
    hour : N; minute : N; second : N; microsecond : N }.




Definition fields (d : t) : list N :=
  [year d; month d; day d; hour d; minute d; second d; microsecond d].

(** Lexicographic comparison, the order of [datetime] objects. *)
Fixpoint lex_compare (a b : list N) : comparison :=
  match a, b with
  | x :: a', y :: b' =>
      match N.compare x y with
      | Eq => lex_compare a' b'
      | c => c
      end
  | [], [] => Eq
  | [], _ => Lt
  | _, [] => Gt
  end.

Definition compare (a b : t) : comparison := lex_compare (fields a) (fields b).


(** ["%0wd" % n] *)
Definition zfill (w : nat) (n : N) : str :=
  let s := dec n in repeat 48%N (w - len s) ++ s.

(** [datetime.isoformat()] of a naive date-time: the fraction is left out
    when the microsecond is zero. *)
Definition isoformat (d : t) : str :=
  zfill 4 (year d) ++ lit "-" ++ zfill 2 (month d) ++ lit "-" ++ zfill 2 (day d)
  ++ lit "T"
  ++ zfill 2 (hour d) ++ lit ":" ++ zfill 2 (minute d) ++ lit ":"
  ++ zfill 2 (second d)
  ++ (if (microsecond d =? 0)%N then [] else lit "." ++ zfill 6 (microsecond d)).

End datetime.

(** ** Python values, as far as the program builds and reads them *)

Inductive value :=
| VNone
| VBool (b : bool)
| VInt (z : Z)
| VFloat (lexeme : str)
| VStr (s : str)
| VList (l : list value)
| VDict (d : list (str * value)).

(** Insertion-ordered dictionaries with [str] keys. *)
Module dict.

Section Dict.
Variable V : Type.

Fixpoint get (d : list (str * V)) (k : str) : option V :=
  match d with
  | [] => None
  | (k', v) :: d' => if PyStr.eqb k' k then Some v else get d' k
  end.

(** [d[k] = v]: an existing key keeps its place. *)
Fixpoint set (d : list (str * V)) (k : str) (v : V) : list (str * V) :=
  match d with
  | [] => [(k, v)]
  | (k', v') :: d' =>
      if PyStr.eqb k' k then (k, v) :: d' else (k', v') :: set d' k v
  end.

Definition keys (d : list (str * V)) : list str := map fst d.

(** [dict(pairs)] *)
Definition of_pairs (pairs : list (str * V)) : list (str * V) :=
  fold_left (fun d kv => set d (fst kv) (snd kv)) pairs [].

End Dict.

End dict.

(** ** The [json] module: [dump] with [indent=4] and [load] *)

Module json.

Definition hex_escape (n : N) : str := lit "\u" ++ hex4 n.

(** The two surrogates [encode_basestring_ascii] writes for a character
    beyond the basic plane, [n] being its code point less [0x10000]. *)
Definition high_half (n : N) : N :=
  N.lor 55296 (N.land (N.shiftr n 10) 1023).

Definition low_half (n : N) : N := N.lor 56320 (N.land n 1023).

(** One character under [encode_basestring_ascii]. *)
Definition escape_char (c : char) : str :=
  (if c =? 92 then lit "\\"
   else if c =? 34 then [92; 34]
   else if c =? 8 then lit "\b"
   else if c =? 12 then lit "\f"
   else if c =? 10 then lit "\n"
   else if c =? 13 then lit "\r"
   else if c =? 9 then lit "\t"
   else if (32 <=? c) && (c <=? 126) then [c]
   else if c <? 65536 then hex_escape c
   else let n := c - 65536 in
        hex_escape (high_half n) ++ hex_escape (low_half n))%N.

Definition encode_basestring_ascii (s : str) : str :=
  [34%N] ++ flat_map escape_char s ++ [34%N].

Fixpoint join (sep : str) (chunks : list str) : str :=
  match chunks with
  | [] => []
  | [x] => x
  | x :: xs => x ++ sep ++ join sep xs
  end.

Definition newline_indent (level : nat) : str :=
  [10%N] ++ repeat 32%N (4 * level).

(** [JSONEncoder(indent=4).iterencode], joined. *)
Fixpoint encode (level : nat) (o : value) : str :=
  match o with
  | VNone => lit "null"
  | VBool true => lit "true"
  | VBool false => lit "false"
  | VInt z => str_of_int z
  | VFloat lexeme => lexeme
  | VStr s => encode_basestring_ascii s
  | VList [] => lit "[]"
  | VList l =>
      lit "[" ++ newline_indent (S level)
      ++ join (lit "," ++ newline_indent (S level)) (map (encode (S level)) l)
      ++ newline_indent level ++ lit "]"
  | VDict [] => lit "{}"
  | VDict d =>
      lit "{" ++ newline_indent (S level)
      ++ join (lit "," ++ newline_indent (S level))
           (map (fun kv => encode_basestring_ascii (fst kv) ++ lit ": "
                           ++ encode (S level) (snd kv)) d)
      ++ newline_indent level ++ lit "}"
  end.

Definition dumps (o : value) : str := encode 0 o.

(** The text [dumps] writes for a dictionary of two string fields. *)
Definition two_strings (k1 v1 k2 v2 : str) : str :=
  123%N :: 10%N :: 32%N :: 32%N :: 32%N :: 32%N :: 34%N
  :: flat_map escape_char k1
  ++ 34%N :: 58%N :: 32%N :: 34%N
  :: flat_map escape_char v1
  ++ 34%N :: 44%N :: 10%N :: 32%N :: 32%N :: 32%N :: 32%N :: 34%N
  :: flat_map escape_char k2
  ++ 34%N :: 58%N :: 32%N :: 34%N
  :: flat_map escape_char v2
  ++ [34%N; 10%N; 125%N].


(** The decoder.  [None] stands for [JSONDecodeError]; a result carries the
    text after the value. *)

Definition is_ws (c : char) : bool :=
  ((c =? 32) || (c =? 9) || (c =? 10) || (c =? 13))%N.

(** [WHITESPACE.match(s, end).end()] *)
Fixpoint skip_ws (s : str) : str :=
  match s with
  | c :: s' => if is_ws c then skip_ws s' else s
  | [] => []
  end.

(** The [BACKSLASH] table. *)
Definition backslash (esc : char) : option char :=
  (if esc =? 34 then Some 34
   else if esc =? 92 then Some 92
   else if esc =? 47 then Some 47
   else if esc =? 98 then Some 8
   else if esc =? 102 then Some 12
   else if esc =? 110 then Some 10
   else if esc =? 114 then Some 13
   else if esc =? 116 then Some 9
   else None)%N.

Definition decode_uXXXX (h1 h2 h3 h4 : char) : option N :=
  match hex_val h1, hex_val h2, hex_val h3, hex_val h4 with
  | Some a, Some b, Some c, Some d => Some (((a * 16 + b) * 16 + c) * 16 + d)%N
  | _, _, _, _ => None
  end.

Definition is_high_surrogate (c : N) : bool := ((55296 <=? c) && (c <=? 56319))%N.
Definition is_low_surrogate (c : N) : bool := ((56320 <=? c) && (c <=? 57343))%N.

Definition join_surrogates (hi lo : N) : N :=
  (65536 + N.lor (N.shiftl (hi - 55296) 10) (lo - 56320))%N.

Definition cons_char (c : char) (r : option (str * str)) : option (str * str) :=
  match r with
  | Some (t, rest) => Some (c :: t, rest)
  | None => None
  end.

(** [scanstring(s, end, strict=True)], entered after the opening quote. *)
Fixpoint scanstring (s : str) : option (str * str) :=
  match s with
  | [] => None
  | c :: s1 =>
      if (c =? 34)%N then Some ([], s1)
      else if (c =? 92)%N then
        match s1 with
        | [] => None
        | esc :: s2 =>
            if (esc =? 117)%N then
              match s2 with
              | h1 :: h2 :: h3 :: h4 :: s3 =>
                  match decode_uXXXX h1 h2 h3 h4 with
                  | None => None
                  | Some uni =>
                      match s3 with
                      | b :: u :: g1 :: g2 :: g3 :: g4 :: s4 =>
                          if is_high_surrogate uni && (b =? 92)%N && (u =? 117)%N
                          then match decode_uXXXX g1 g2 g3 g4 with
                               | None => None
                               | Some uni2 =>
                                   if is_low_surrogate uni2
                                   then cons_char (join_surrogates uni uni2)
                                                  (scanstring s4)
                                   else cons_char uni (scanstring s3)
                               end
                          else cons_char uni (scanstring s3)
                      | _ => cons_char uni (scanstring s3)
                      end
                  end
              | _ => None
              end
            else match backslash esc with
                 | None => None
                 | Some c' => cons_char c' (scanstring s2)
                 end
        end
      else if (c <? 32)%N then None
      else cons_char c (scanstring s1)
  end.

Fixpoint strip_prefix (p s : str) : option str :=
  match p, s with
  | [], _ => Some s
  | x :: p', y :: s' => if N.eqb x y then strip_prefix p' s' else None
  | _ :: _, [] => None
  end.

Fixpoint span_digits (s : str) : str * str :=
  match s with
  | c :: s' =>
      if is_ascii_digit c
      then let (ds, r) := span_digits s' in (c :: ds, r)
      else ([], s)
  | [] => ([], [])
  end.

(** [NUMBER_RE]: the integer part, then an optional fraction and exponent;
    a lexeme is returned with what follows it. *)
Definition integer_digits (sign s0 : str) : option (str * str) :=
  match s0 with
  | c :: s' =>
      if (c =? 48)%N then Some (sign ++ [c], s')
      else if is_ascii_digit c
      then let (ds, r) := span_digits s' in Some (sign ++ c :: ds, r)
      else None
  | [] => None
  end.

Definition match_integer (s : str) : option (str * str) :=
  match s with
  | c :: s' =>
      if (c =? 45)%N then integer_digits [c] s' else integer_digits [] s
  | [] => None
  end.

Definition match_frac (s : str) : str * str :=
  match s with
  | c :: s' =>
      if (c =? 46)%N
      then match span_digits s' with
           | ([], _) => ([], s)
           | (ds, r) => (c :: ds, r)
           end
      else ([], s)
  | [] => ([], s)
  end.

Definition match_exp (s : str) : str * str :=
  match s with
  | e :: s' =>
      if (e =? 101)%N || (e =? 69)%N
      then let (sg, s1) := match s' with
                           | c :: s'' =>
                               if (c =? 43)%N || (c =? 45)%N
                               then ([c], s'') else ([], s')
                           | [] => ([], s')
                           end in
           match span_digits s1 with
           | ([], _) => ([], s)
           | (ds, r) => (e :: sg ++ ds, r)
           end
      else ([], s)
  | [] => ([], s)
  end.

(** [int(integer)] on a lexeme of [match_integer]. *)
Definition int_of_lexeme (lx : str) : Z :=
  match lx with
  | c :: ds => if (c =? 45)%N then (- Z.of_N (int10 ds))%Z else Z.of_N (int10 lx)
  | [] => 0%Z
  end.

Definition scan_number (s : str) : option (value * str) :=
  match match_integer s with
  | None => None
  | Some (integer, r0) =>
      let (frac, r1) := match_frac r0 in
      let (exp, r2) := match_exp r1 in
      match frac, exp with
      | [], [] => Some (VInt (int_of_lexeme integer), r2)
      | _, _ => Some (VFloat (integer ++ frac ++ exp), r2)
      end
  end.

Definition scan_constant (s : str) : option (value * str) :=
  match strip_prefix (lit "null") s with
  | Some r => Some (VNone, r)
  | None =>
  match strip_prefix (lit "true") s with
  | Some r => Some (VBool true, r)
  | None =>
  match strip_prefix (lit "false") s with
  | Some r => Some (VBool false, r)
  | None =>
  match scan_number s with
  | Some res => Some res
  | None =>
  match strip_prefix (lit "NaN") s with
  | Some r => Some (VFloat (lit "NaN"), r)
  | None =>
  match strip_prefix (lit "Infinity") s with
  | Some r => Some (VFloat (lit "Infinity"), r)
  | None =>
  match strip_prefix (lit "-Infinity") s with
  | Some r => Some (VFloat (lit "-Infinity"), r)
  | None => None
  end end end end end end end.

(** [scan_once], [JSONObject] and [JSONArray].  The recursion of the
    library is on the text; here every call spends one unit of [fuel], and
    a scan that succeeds spends no more units than it reads characters. *)
Fixpoint scan_once (fuel : nat) (s : str) : option (value * str) :=
  match fuel with
  | O => None
  | S fuel' =>
      match s with
      | [] => None
      | c :: s' =>
          if (c =? 34)%N then
            match scanstring s' with
            | Some (t, r) => Some (VStr t, r)
            | None => None
            end
          else if (c =? 123)%N then
            match skip_ws s' with
            | c1 :: r1 =>
                if (c1 =? 125)%N then Some (VDict [], r1)
                else if (c1 =? 34)%N then
                  match object_pairs fuel' r1 with
                  | Some (pairs, r) => Some (VDict (dict.of_pairs pairs), r)
                  | None => None
                  end
                else None
            | [] => None
            end
          else if (c =? 91)%N then
            match skip_ws s' with
            | c1 :: r1 =>
                if (c1 =? 93)%N then Some (VList [], r1)
                else match array_items fuel' (c1 :: r1) with
                     | Some (items, r) => Some (VList items, r)
                     | None => None
                     end
            | [] => None
            end
          else scan_constant s
      end
  end

(** The [while True] loop of [JSONObject], entered after the opening quote
    of a key. *)
with object_pairs (fuel : nat) (s : str) : option (list (str * value) * str) :=
  match fuel with
  | O => None
  | S fuel' =>
      match scanstring s with
      | None => None
      | Some (key, r0) =>
          match skip_ws r0 with
          | colon :: r1 =>
              if negb (colon =? 58)%N then None else
              match scan_once fuel' (skip_ws r1) with
              | None => None
              | Some (v, r2) =>
                  match skip_ws r2 with
                  | nextchar :: r3 =>
                      if (nextchar =? 125)%N then Some ([(key, v)], r3)
                      else if negb (nextchar =? 44)%N then None
                      else match skip_ws r3 with
                           | q :: r4 =>
                               if negb (q =? 34)%N then None else
                               match object_pairs fuel' r4 with
                               | Some (pairs, r) => Some ((key, v) :: pairs, r)
                               | None => None
                               end
                           | [] => None
                           end
                  | [] => None
                  end
              end
          | [] => None
          end
      end
  end

(** The [while True] loop of [JSONArray], entered at an item. *)
with array_items (fuel : nat) (s : str) : option (list value * str) :=
  match fuel with
  | O => None
  | S fuel' =>
      match scan_once fuel' s with
      | None => None
      | Some (v, r0) =>
          match skip_ws r0 with
          | nextchar :: r1 =>
              if (nextchar =? 93)%N then Some ([v], r1)
              else if negb (nextchar =? 44)%N then None
              else match array_items fuel' (skip_ws r1) with
                   | Some (items, r) => Some (v :: items, r)
                   | None => None
                   end
          | [] => None
          end
      end
  end.

(** [JSONDecoder.decode]: one value between white space, and nothing else. *)
Definition loads (s : str) : option value :=
  match scan_once (S (len s)) (skip_ws s) with
  | Some (obj, r) =>
      match skip_ws r with
      | [] => Some obj
      | _ => None
      end
  | None => None
  end.

(** A scan that succeeds has used no more fuel than the characters it has
    read: it succeeds, with the same result, on every fuel that is at least
    the number of characters read. *)
Definition frugal {A : Type} (scan : nat -> str -> option (A * str))
           (fuel : nat) : Prop :=
  forall s a r,
    scan fuel s = Some (a, r) ->
    (len r < len s)%nat
    /\ forall fuel', (len s - len r <= fuel')%nat -> scan fuel' s = Some (a, r).

End json.

(** ** The [re] module: the fragment of the socket pattern *)

Module re.

Section Regex.

(** [\d] on a [str] pattern matches the characters of Unicode category Nd;
    the table lives in the interpreter's Unicode database. *)
Variable decimal : char -> bool.

Inductive cls := Digit | Lit (c : char).

(** An item is one character of a class, or one or more of them. *)
Inductive item := One (k : cls) | Plus (k : cls).

Definition in_cls (k : cls) (c : char) : bool :=
  match k with
  | Digit => decimal c
  | Lit c' => N.eqb c c'
  end.

(** Zero or more characters of [k], then [rest]: whether some split
    matches. *)
Fixpoint star (k : cls) (rest : str -> bool) (s : str) : bool :=
  rest s
  || match s with
     | c :: s' => in_cls k c && star k rest s'
     | [] => false
     end.

(** Whether the pattern matches a prefix of the text. *)
Fixpoint match_here (p : list item) (s : str) : bool :=
  match p with
  | [] => true
  | One k :: p' =>
      match s with
      | c :: s' => in_cls k c && match_here p' s'
      | [] => false
      end
  | Plus k :: p' =>
      match s with
      | c :: s' => in_cls k c && star k (match_here p') s'
      | [] => false
      end
  end.

(** [re.search(p, s)] as a truth value: a match at some position. *)
Fixpoint search (p : list item) (s : str) : bool :=
  match_here p s
  || match s with
     | _ :: s' => search p s'
     | [] => false
     end.

(** The pattern as a language: a non-empty run of a class for [Plus]. *)
Definition run (k : cls) (r : str) : Prop :=
  r <> [] /\ Forall (fun c => in_cls k c = true) r.

Fixpoint lang (p : list item) (m : str) : Prop :=
  match p with
  | [] => m = []
  | One k :: p' => exists c m', m = c :: m' /\ in_cls k c = true /\ lang p' m'
  | Plus k :: p' => exists r m', m = r ++ m' /\ run k r /\ lang p' m'
  end.

(** A text contains the pattern when one of its slices is a word of it. *)
Definition contains (p : list item) (s : str) : Prop :=
  exists pre m post, s = pre ++ m ++ post /\ lang p m.

(** The address:port pattern in the words of the specification: four
    dot-separated runs of decimal digits, a colon, and a decimal port. *)
Definition digits (d : str) : Prop :=
  d <> [] /\ Forall (fun c => decimal c = true) d.

Definition has_addr_port (line : str) : Prop :=
  exists pre a b c d port post,
    line = pre ++ a ++ [46%N] ++ b ++ [46%N] ++ c ++ [46%N] ++ d
               ++ [58%N] ++ port ++ post
    /\ digits a /\ digits b /\ digits c /\ digits d /\ digits port.

End Regex.

(** [r'\d+\.\d+\.\d+\.\d+:\d+'] *)
Definition addr_port_pattern : list item :=
  [Plus Digit; One (Lit (ch ".")); Plus Digit; One (Lit (ch "."));
   Plus Digit; One (Lit (ch ".")); Plus Digit; One (Lit (ch ":")); Plus Digit].

End re.

(** ** Exceptions and results *)

Inductive exn :=
| CalledProcessError (returncode : Z) (cmd : list str)
| OSError
| FileNotFoundError
| PermissionError
| JSONDecodeError
| KeyError (key : str)
| TypeError
| IndexError.

Inductive result (A : Type) :=
| Ok (a : A)
| Raise (e : exn).

Arguments Ok {A} a.
Arguments Raise {A} e.

(** The [except] clauses of the program. *)
Definition is_CalledProcessError (e : exn) : bool :=
  match e with CalledProcessError _ _ => true | _ => false end.

Definition is_FileNotFoundError (e : exn) : bool :=
  match e with FileNotFoundError => true | _ => false end.

Definition is_Exception (e : exn) : bool := true.

(** [l[i]], negative indices counting from the end. *)
Definition getitem {A : Type} (l : list A) (i : Z) : result A :=
  let j := if (i <? 0)%Z then (Z.of_nat (len l) + i)%Z else i in
  if (j <? 0)%Z then Raise IndexError
  else match nth_error l (Z.to_nat j) with
       | Some x => Ok x
       | None => Raise IndexError
       end.

(** [obj[key]] on a decoded JSON value and a [str] key. *)
Definition subscript (obj : value) (key : str) : result value :=
  match obj with
  | VDict d => match dict.get d key with
               | Some v => Ok v
               | None => Raise (KeyError key)
               end
  | _ => Raise TypeError
  end.

(** ** The platform: processes, clock and Unicode tables *)

Record platform := Platform
  { os_state : Type;
    (** Running a command: [None] when it cannot be launched, else the exit
        status and the captured standard output. *)
    spawn : list str -> os_state -> option (Z * str) * os_state;
    (** [datetime.now()] *)
    now : os_state -> datetime.t;
    (** The class [\d] of [re]. *)
    decimal : char -> bool }.

(** A message of an f-string: text, and interpolated objects whose
    formatting is left uninterpreted. *)
Inductive piece :=
| Text (s : str)
| FmtExn (e : exn)
| FmtValue (v : value).

Definition message := list piece.

Inductive level := INFO | ERROR.

Section World.

Variable P : platform.

Record world := World
  { os : os_state P;
    (** Every command handed to [subprocess.run], oldest first. *)
    calls : list (list str);
    (** The records of the root logger, oldest first. *)
    log : list (level * message);
    (** What [print] wrote, oldest first. *)
    console : list message;
    (** The files written by the program, by path. *)
    disk : list (str * str) }.

Definition M (A : Type) : Type := world -> result A * world.

Definition ret {A} (a : A) : M A := fun w => (Ok a, w).

Definition raise {A} (e : exn) : M A := fun w => (Raise e, w).

Definition bind {A B} (m : M A) (k : A -> M B) : M B :=
  fun w => match m w with
           | (Ok a, w') => k a w'
           | (Raise e, w') => (Raise e, w')
           end.

(** [try: body except <class> as e: handler e] *)
Definition try_except {A} (body : M A) (catches : exn -> bool)
           (handler : exn -> M A) : M A :=
  fun w => match body w with
           | (Raise e, w') => if catches e then handler e w' else (Raise e, w')
           | r => r
           end.

(** A [try] with two [except] clauses, tried in order; neither guards the
    other's handler. *)
Definition try_except2 {A} (body : M A)
           (catches1 : exn -> bool) (handler1 : exn -> M A)
           (catches2 : exn -> bool) (handler2 : exn -> M A) : M A :=
  fun w => match body w with
           | (Raise e, w') =>
               if catches1 e then handler1 e w'
               else if catches2 e then handler2 e w'
               else (Raise e, w')
           | r => r
           end.

Definition lift {A} (r : result A) : M A := fun w => (r, w).

Definition logging (l : level) (msg : message) : M unit :=
  fun w => (Ok tt, World (os w) (calls w) (log w ++ [(l, msg)]) (console w) (disk w)).

Definition print (msg : message) : M unit :=
  fun w => (Ok tt, World (os w) (calls w) (log w) (console w ++ [msg]) (disk w)).

(** [subprocess.run(cmd, check=True)], giving the captured output. *)
Definition subprocess_run (cmd : list str) : M str :=
  fun w =>
    let (outcome, os') := spawn P cmd (os w) in
    let w' := World os' (calls w ++ [cmd]) (log w) (console w) (disk w) in
    match outcome with
    | None => (Raise OSError, w')
    | Some (returncode, stdout) =>
        if (returncode =? 0)%Z then (Ok stdout, w')
        else (Raise (CalledProcessError returncode cmd), w')
    end.

Definition datetime_now : M datetime.t := fun w => (Ok (now P (os w)), w).

(** [with open(path, 'w') as f: f.write(text)], in a directory that can be
    written to. *)
Definition write_file (path text : str) : M unit :=
  fun w => (Ok tt, World (os w) (calls w) (log w) (console w)
                         (dict.set (disk w) path text)).

(** [with open(path, 'r') as f: f.read()]: a file that is there can be
    read. *)
Definition read_file (path : str) : M str :=
  fun w => match dict.get (disk w) path with
           | Some text => (Ok text, w)
           | None => (Raise FileNotFoundError, w)
           end.

End World.

Arguments ret {P A} a.
Arguments raise {P A} e.
Arguments bind {P A B} m k.
Arguments try_except {P A} body catches handler.
Arguments try_except2 {P A} body catches1 handler1 catches2 handler2.
Arguments lift {P A} r.
Arguments subprocess_run {P} cmd.
Arguments logging {P} l msg.
Arguments print {P} msg.
Arguments datetime_now {P}.
Arguments write_file {P} path text.
Arguments read_file {P} path.

Declare Scope py_scope.
Delimit Scope py_scope with py.
Notation "x <- m ;; k" := (bind m (fun x => k))
  (at level 61, m at next level, right associativity) : py_scope.
Notation "m ;; k" := (bind m (fun _ => k))
  (at level 61, right associativity) : py_scope.

(** ** The traffic census: the body of [analyze_traffic] on the captured
    text *)

Module census.

(** The [analysis] dictionary while it is being filled. *)
Record analysis := Analysis
  { total_connections : Z;
    listening_ports : list str;
    connection_protocols : list (str * Z) }.

Section Census.

Variable decimal : char -> bool.

(** One turn of [for conn in connections]. *)
Definition visit (conn : str) (a : analysis) : result analysis :=
  if re.search decimal re.addr_port_pattern conn then
    let parts := split_ws conn in
    if (4 <=? len parts)%nat then
      match getitem parts 0 with
      | Raise e => Raise e
      | Ok protocol =>
      match getitem parts 3 with
      | Raise e => Raise e
      | Ok local =>
      match getitem (split (ch ":") local) (-1) with
      | Raise e => Raise e
      | Ok port =>
          Ok (Analysis (total_connections a)
                (listening_ports a ++ [port])
                (dict.set (connection_protocols a) protocol
                   (match dict.get (connection_protocols a) protocol with
                    | Some n => n
                    | None => 0
                    end + 1)%Z))
      end end end
    else Ok a
  else Ok a.

Fixpoint for_each (connections : list str) (a : analysis) : result analysis :=
  match connections with
  | [] => Ok a
  | conn :: rest =>
      match visit conn a with
      | Ok a' => for_each rest a'
      | Raise e => Raise e
      end
  end.

(** Lines 178 to 195: from the captured text to the filled dictionary. *)
Definition summarize (stdout : str) : result analysis :=
  let connections := split 10%N stdout in
  for_each connections (Analysis (Z.of_nat (len connections)) [] []).

(** The census in the words of the specification: a line is counted when
    it contains the address:port pattern and has at least four fields; its
    protocol is the first field, its port what follows the last colon of the
    fourth. *)
Definition counted (line : str) : bool :=
  re.search decimal re.addr_port_pattern line && (4 <=? len (split_ws line))%nat.

Definition protocol_of (line : str) : str := nth 0 (split_ws line) [].

Definition port_of (line : str) : str :=
  last (split (ch ":") (nth 3 (split_ws line) [])) [].

Definition occurrences (protocol : str) (lines : list str) : Z :=
  Z.of_nat (len (filter (fun l => PyStr.eqb (protocol_of l) protocol) lines)).

End Census.

(** The count a protocol has in the dictionary, [0] when it is absent. *)
Definition tally (d : list (str * Z)) (protocol : str) : Z :=
  match dict.get d protocol with Some n => n | None => 0%Z end.

(** The dictionary after one counted line. *)
Definition record_line (line : str) (a : analysis) : analysis :=
  Analysis (total_connections a)
    (listening_ports a ++ [port_of line])
    (dict.set (connection_protocols a) (protocol_of line)
       (tally (connection_protocols a) (protocol_of line) + 1)%Z).

(** The two lines of the specification's example. *)
Definition tcp_line : str :=
  lit "tcp        0      0 0.0.0.0:22              0.0.0.0:*               LISTEN".

Definition udp_line : str :=
  lit "udp        0      0 127.0.0.1:53            0.0.0.0:*                      ".

(** The dictionary as the value that is returned. *)
Definition to_value (a : analysis) : value :=
  VDict [(lit "total_connections", VInt (total_connections a));
         (lit "listening_ports", VList (map VStr (listening_ports a)));
         (lit "connection_protocols",
          VDict (map (fun kv => (fst kv, VInt (snd kv))) (connection_protocols a)))].

End census.

(** ** [FirewallRulesManager] *)

Section Manager.

Variable P : platform.

Local Open Scope py_scope.

Record manager := Manager { log_file : str; config_file : str }.

Definition check_sudo_privileges (self : manager) : M P unit :=
  try_except
    (_ <- subprocess_run [lit "sudo"; lit "-n"; lit "true"] ;; ret tt)
    is_CalledProcessError
    (fun _ =>
       logging ERROR [Text (lit "Insufficient sudo privileges")] ;;
       raise PermissionError).

(** [__init__] *)
Definition init (log_file : str) : M P manager :=
  let self := Manager log_file (lit "firewall_config.json") in
  check_sudo_privileges self ;;
  ret self.

Definition list_current_rules (self : manager) : M P value :=
  try_except
    (stdout <- subprocess_run
                 [lit "sudo"; lit "iptables"; lit "-L"; lit "-n"; lit "-v"] ;;
     print [Text (lit "Current Firewall Rules:")] ;;
     print [Text stdout] ;;
     ret (VStr stdout))
    is_CalledProcessError
    (fun e =>
       logging ERROR [Text (lit "Failed to list rules: "); FmtExn e] ;;
       ret (VList [])).

Definition validate_ip (ip : str) : bool :=
  match ipaddress.ip_address ip with
  | Some _ => true
  | None => false
  end.

Definition rule_command (flag chain source_ip : str) (destination_port : Z)
           (protocol : str) : list str :=
  [lit "sudo"; lit "iptables"; flag; chain;
   lit "-p"; protocol;
   lit "-s"; source_ip;
   lit "--dport"; str_of_int destination_port;
   lit "-j"; lit "ACCEPT"].

Definition rule_message (what chain source_ip : str) (destination_port : Z)
           (protocol : str) : message :=
  [Text (what ++ lit ": Chain=" ++ chain
         ++ lit ", Source IP=" ++ source_ip
         ++ lit ", Destination Port=" ++ str_of_int destination_port
         ++ lit ", Protocol=" ++ protocol)].

Definition add_rule (self : manager) (chain source_ip : str)
           (destination_port : Z) (protocol : str) : M P bool :=
  if negb (validate_ip source_ip) then
    logging ERROR [Text (lit "Invalid IP address: " ++ source_ip)] ;;
    ret false
  else
    try_except
      (_ <- subprocess_run
              (rule_command (lit "-A") chain source_ip destination_port protocol) ;;
       let log_message :=
         rule_message (lit "Rule Added") chain source_ip destination_port protocol in
       logging INFO log_message ;;
       print log_message ;;
       ret true)
      is_CalledProcessError
      (fun e =>
         logging ERROR [Text (lit "Failed to add rule: "); FmtExn e] ;;
         ret false).

Definition delete_rule (self : manager) (chain source_ip : str)
           (destination_port : Z) (protocol : str) : M P bool :=
  try_except
    (_ <- subprocess_run
            (rule_command (lit "-D") chain source_ip destination_port protocol) ;;
     let log_message :=
       rule_message (lit "Rule Deleted") chain source_ip destination_port protocol in
     logging INFO log_message ;;
     print log_message ;;
     ret true)
    is_CalledProcessError
    (fun e =>
       logging ERROR [Text (lit "Failed to delete rule: "); FmtExn e] ;;
       ret false).

Definition analyze_traffic (self : manager) : M P value :=
  try_except
    (stdout <- subprocess_run [lit "sudo"; lit "netstat"; lit "-tuln"] ;;
     analysis <- lift (census.summarize (decimal P) stdout) ;;
     logging INFO [Text (lit "Traffic Analysis Completed")] ;;
     ret (census.to_value analysis))
    is_CalledProcessError
    (fun e =>
       logging ERROR [Text (lit "Traffic analysis failed: "); FmtExn e] ;;
       ret (VDict [])).

Definition save_configuration (self : manager) : M P unit :=
  try_except
    (current_rules <- list_current_rules self ;;
     timestamp <- datetime_now ;;
     let config :=
       VDict [(lit "timestamp", VStr (datetime.isoformat timestamp));
              (lit "rules", current_rules)] in
     write_file (config_file self) (json.dumps config) ;;
     logging INFO [Text (lit "Configuration saved to " ++ config_file self)])
    is_Exception
    (fun e =>
       logging ERROR [Text (lit "Failed to save configuration: "); FmtExn e]).

(** [json.load(f)] on the file at [path]. *)
Definition load_json (path : str) : M P value :=
  text <- read_file path ;;
  match json.loads text with
  | Some config => ret config
  | None => raise JSONDecodeError
  end.

Definition restore_configuration (self : manager) : M P unit :=
  try_except2
    (config <- load_json (config_file self) ;;
     timestamp <- lift (subscript config (lit "timestamp")) ;;
     print [Text (lit "Restoring configuration from "); FmtValue timestamp] ;;
     logging INFO [Text (lit "Configuration restored from " ++ config_file self)])
    is_FileNotFoundError
    (fun _ => logging ERROR [Text (lit "No saved configuration found")])
    is_Exception
    (fun e =>
       logging ERROR [Text (lit "Configuration restoration failed: "); FmtExn e]).

End Manager.

(** ** ISO 8601, in the words of the specification

    The extended local date-time representation
    [YYYY-MM-DDThh:mm:ss] with an optional decimal fraction of the second of
    up to six digits, denoting a calendar date and a time of day. *)

Module iso8601.




End iso8601.

(** ** A reference platform

    A small packet filter in the manner of [iptables]: [-A] appends to a
    built-in chain whatever the chain already holds, [-D] removes the first
    rule equal to its specification and exits with status 1 when there is
    none, a malformed specification exits with status 2.  Every command
    takes one tick of the clock. *)

Module sim.

Definition rule : Type := str * str * str * str.

Record state := State
  { table : list rule;
    sockets : str;
    ticks : N }.

Definition rule_eqb (a b : rule) : bool :=
  let '(c1, p1, s1, d1) := a in
  let '(c2, p2, s2, d2) := b in
  PyStr.eqb c1 c2 && PyStr.eqb p1 p2 && PyStr.eqb s1 s2 && PyStr.eqb d1 d2.

Fixpoint strs_eqb (a b : list str) : bool :=
  match a, b with
  | [], [] => true
  | x :: a', y :: b' => PyStr.eqb x y && strs_eqb a' b'
  | _, _ => false
  end.

Fixpoint remove_first (r : rule) (t : list rule) : option (list rule) :=
  match t with
  | [] => None
  | r' :: t' =>
      if rule_eqb r' r then Some t'
      else option_map (cons r') (remove_first r t')
  end.

Definition builtin_chain (c : str) : bool :=
  PyStr.eqb c (lit "INPUT") || PyStr.eqb c (lit "OUTPUT")
  || PyStr.eqb c (lit "FORWARD").

Definition known_protocol (p : str) : bool :=
  PyStr.eqb p (lit "tcp") || PyStr.eqb p (lit "udp").

Definition port_ok (d : str) : bool :=
  negb (ipaddress.is_empty d) && forallb is_ascii_digit d
  && (len d <=? 5)%nat && (int10 d <=? 65535)%N.

Definition source_ok (s : str) : bool :=
  match ipaddress.IPv4Address s with Some _ => true | None => false end.

Definition render_rule (r : rule) : str :=
  let '(c, p, s, d) := r in
  lit "ACCEPT " ++ p ++ lit " -- " ++ s ++ lit " 0.0.0.0/0 " ++ p
  ++ lit " dpt:" ++ d ++ lit " chain " ++ c ++ [10%N].

Definition listing (t : list rule) : str := flat_map render_rule t.

Definition tick (st : state) : state :=
  State (table st) (sockets st) (ticks st + 1).

Definition iptables (args : list str) (st : state) : option (Z * str) * state :=
  if strs_eqb args [lit "-L"; lit "-n"; lit "-v"]
  then (Some (0%Z, listing (table st)), st)
  else
    match args with
    | [flag; c; _; p; _; s; _; d; _; _] =>
        if negb (known_protocol p && source_ok s && port_ok d)
        then (Some (2%Z, []), st)
        else if negb (builtin_chain c) then (Some (1%Z, []), st)
        else if PyStr.eqb flag (lit "-A")
        then (Some (0%Z, []), State (table st ++ [(c, p, s, d)]) (sockets st) (ticks st))
        else if PyStr.eqb flag (lit "-D")
        then match remove_first (c, p, s, d) (table st) with
             | Some t' => (Some (0%Z, []), State t' (sockets st) (ticks st))
             | None => (Some (1%Z, []), st)
             end
        else (Some (2%Z, []), st)
    | _ => (Some (2%Z, []), st)
    end.

Definition spawn (cmd : list str) (st : state) : option (Z * str) * state :=
  let st := tick st in
  match cmd with
  | sudo :: prog :: args =>
      if negb (PyStr.eqb sudo (lit "sudo")) then (None, st)
      else if PyStr.eqb prog (lit "iptables") then iptables args st
      else if strs_eqb (prog :: args) [lit "netstat"; lit "-tuln"]
      then (Some (0%Z, sockets st), st)
      else if strs_eqb (prog :: args) [lit "-n"; lit "true"]
      then (Some (0%Z, []), st)
      else (Some (1%Z, []), st)
  | _ => (None, st)
  end.

Definition now (st : state) : datetime.t :=
  datetime.mk 2024 1 1 0 0 0 (N.min (ticks st) 999999).

Definition machine : platform :=
  Platform spawn now is_ascii_digit.

Definition netstat_output : str :=
  lit "Active Internet connections (only servers)" ++ [10%N]
  ++ lit "Proto Recv-Q Send-Q Local Address           Foreign Address         State"
  ++ [10%N]
  ++ lit "tcp        0      0 0.0.0.0:22              0.0.0.0:*               LISTEN"
  ++ [10%N]
  ++ lit "udp        0      0 127.0.0.1:53            0.0.0.0:*                      "
  ++ [10%N].

Definition boot_state : state := State [] netstat_output 0.

Definition boot : world machine := World machine boot_state [] [] [] [].

Definition self : manager := Manager (lit "firewall_rules.log") (lit "firewall_config.json").

(** The booted machine after one rule has been applied. *)
Definition web_rule : rule := (lit "INPUT", lit "tcp", lit "203.0.113.5", lit "443").

Definition ruled : world machine :=
  snd (add_rule self (lit "INPUT") (lit "203.0.113.5") 443 (lit "tcp") boot).


(** The same machine when [sudo] turns every command down with status 1. *)
Definition refuse (cmd : list str) (st : state) : option (Z * str) * state :=
  (Some (1%Z, []), tick st).

Definition refusing : platform :=
  Platform refuse now is_ascii_digit.

Definition refused : world refusing := World refusing boot_state [] [] [] [].

End sim.

(** ** Rule descriptors, in the words of the specification *)

Definition valid_descriptor (chain source_ip : str) (destination_port : Z)
           (protocol : str) : Prop :=
  In chain [lit "INPUT"; lit "OUTPUT"; lit "FORWARD"]
  /\ validate_ip source_ip = true
  /\ (1 <= destination_port <= 65535)%Z
  /\ In protocol [lit "tcp"; lit "udp"].

(** The engine takes a command whatever state it is in, as [iptables -A]
    takes a rule whatever the chain already holds. *)
Definition always_accepts (P : platform) (cmd : list str) : Prop :=
  forall s, exists stdout s', spawn P cmd s = (Some (0%Z, stdout), s').


(** ** Worlds after an operation *)

Section Observations.

Variable P : platform.

Definition logged (w : world P) (l : level) (msg : message) : world P :=
  World P (os w) (calls w) (log w ++ [(l, msg)]) (console w) (disk w).

(** What a failed command leaves behind: the call, and one error record. *)
Definition after_failure (w : world P) (s' : os_state P) (cmd : list str)
           (what : string) (returncode : Z) : world P :=
  World P s' (calls w ++ [cmd])
        (log w ++ [(ERROR, [Text (lit what);
                            FmtExn (CalledProcessError returncode cmd)])])
        (console w) (disk w).

End Observations.

(** The snapshot [save_configuration] writes when the listing succeeds. *)
Definition snapshot_of (listing : str) (t : datetime.t) : value :=
  VDict [(lit "timestamp", VStr (datetime.isoformat t));
         (lit "rules", VStr listing)].

Definition list_command : list str :=
  [lit "sudo"; lit "iptables"; lit "-L"; lit "-n"; lit "-v"].

Definition netstat_command : list str := [lit "sudo"; lit "netstat"; lit "-tuln"].

(** ** Further platforms for the runs *)

Module lab.

(** A machine on which no command can be launched at all, as when [sudo] is
    not installed. *)
Definition no_launch (cmd : list str) (st : sim.state)
  : option (Z * str) * sim.state := (None, sim.tick st).

Definition bare : platform := Platform no_launch sim.now is_ascii_digit.

Definition stranded : world bare := World bare sim.boot_state [] [] [] [].

End lab.

(** The world after a command that could not be launched. *)
Definition after_launch_failure (P : platform) (w : world P) (s' : os_state P)
           (cmd : list str) : world P :=
  World P s' (calls w ++ [cmd]) (log w) (console w) (disk w).

(** The world after a rule command that went through: the call, one record
    at level INFO, and the same message printed. *)
Definition after_rule (P : platform) (w : world P) (s' : os_state P)
           (cmd : list str) (msg : message) : world P :=
  World P s' (calls w ++ [cmd]) (log w ++ [(INFO, msg)]) (console w ++ [msg])
        (disk w).

Definition sudo_check : list str := [lit "sudo"; lit "-n"; lit "true"].

(** ** Measures of a census *)

(** The number of newline characters of a text. *)
Definition newlines (text : str) : nat := count_occ N.eq_dec text 10%N.

(** The sum of the counts of a dictionary. *)
Definition sum_counts (d : list (str * Z)) : Z :=
  fold_right (fun kv acc => (snd kv + acc)%Z) 0%Z d.

(** A token of [s.split()]: not empty, and free of white space. *)
Definition token (k : str) : Prop :=
  k <> [] /\ forallb (fun c => negb (isspace c)) k = true.

(** The dictionary is well formed: the counts add up to the number of ports,
    no protocol appears twice, every protocol is a token, and no port holds a
    colon. *)
Definition well_formed (a : census.analysis) : Prop :=
  sum_counts (census.connection_protocols a)
  = Z.of_nat (len (census.listening_ports a))
  /\ NoDup (dict.keys (census.connection_protocols a))
  /\ Forall token (dict.keys (census.connection_protocols a))
  /\ Forall (fun p => mem (ch ":") p = false) (census.listening_ports a).

(** ** Snapshots of a failed listing *)

(** The text [dumps] writes for a dictionary of a string field and a field
    holding the empty list. *)
Definition string_and_empty_list (k1 v1 k2 : str) : str :=
  123%N :: 10%N :: 32%N :: 32%N :: 32%N :: 32%N :: 34%N
  :: flat_map json.escape_char k1
  ++ 34%N :: 58%N :: 32%N :: 34%N
  :: flat_map json.escape_char v1
  ++ 34%N :: 44%N :: 10%N :: 32%N :: 32%N :: 32%N :: 32%N :: 34%N
  :: flat_map json.escape_char k2
  ++ [34%N; 58%N; 32%N; 91%N; 93%N; 10%N; 125%N].

(** The snapshot [save_configuration] writes when the listing fails. *)
Definition empty_snapshot (t : datetime.t) : value :=
  VDict [(lit "timestamp", VStr (datetime.isoformat t));
         (lit "rules", VList [])].

(** Worlds whose snapshot file was not written by the program. *)
Module lab_store.

Definition corrupt : world sim.machine :=
  World sim.machine sim.boot_state [] [] []
        [(lit "firewall_config.json", lit "{")].

Definition untimed : world sim.machine :=
  World sim.machine sim.boot_state [] [] []
        [(lit "firewall_config.json", lit "{}")].

End lab_store.

(** ** [json.dumps] with any indent *)

Module json_indent.

Definition newline_indent (indent level : nat) : str :=
  [10%N] ++ repeat 32%N (indent * level).

(** [JSONEncoder(indent=indent).iterencode], joined. *)
Fixpoint encode (indent level : nat) (o : value) : str :=
  match o with
  | VNone => lit "null"
  | VBool true => lit "true"
  | VBool false => lit "false"
  | VInt z => str_of_int z
  | VFloat lexeme => lexeme
  | VStr s => json.encode_basestring_ascii s
  | VList [] => lit "[]"
  | VList l =>
      lit "[" ++ newline_indent indent (S level)
      ++ json.join (lit "," ++ newline_indent indent (S level))
           (map (encode indent (S level)) l)
      ++ newline_indent indent level ++ lit "]"
  | VDict [] => lit "{}"
  | VDict d =>
      lit "{" ++ newline_indent indent (S level)
      ++ json.join (lit "," ++ newline_indent indent (S level))
           (map (fun kv => json.encode_basestring_ascii (fst kv) ++ lit ": "
                           ++ encode indent (S level) (snd kv)) d)
      ++ newline_indent indent level ++ lit "}"
  end.

Definition dumps (indent : nat) (o : value) : str := encode indent 0 o.

End json_indent.

(** ** [main], from the parsed command line on *)

(** The namespace [parse_args] returns: a flag is [True] or [False], an
    option with three arguments is their list or [None]. *)
Record namespace := Namespace
  { args_list : bool;
    args_add : option (str * str * str);
    args_delete : option (str * str * str);
    args_analyze : bool;
    args_save : bool;
    args_restore : bool }.

(** How [main] ends: it returns, or an exception leaves it. *)
Inductive ending :=
| Returned
| SystemExit (code : Z)
| ValueError (text : str)
| Uncaught (e : exn).

Section Main.

Variable P : platform.

(** [int(s)] on a [str]: [None] stands for its [ValueError]. *)
Variable int_ : str -> option Z.

Definition Main : Type := world P -> ending * world P.

(** One statement of [main]: an exception of the statement leaves [main]. *)
Definition then_ {A : Type} (m : M P A) (k : A -> Main) : Main :=
  fun w => match m w with
           | (Ok a, w') => k a w'
           | (Raise e, w') => (Uncaught e, w')
           end.

(** [if flag: statement] *)
Definition when_ (flag : bool) (m : M P unit) (k : Main) : Main :=
  if flag then then_ m (fun _ => k) else k.

(** [if option: method(option[0], option[1], int(option[2]))] *)
Definition with_rule (option : option (str * str * str))
           (method : str -> str -> Z -> M P bool) (k : Main) : Main :=
  match option with
  | None => k
  | Some (chain, source_ip, port) =>
      match int_ port with
      | None => fun w => (ValueError port, w)
      | Some destination_port =>
          then_ (method chain source_ip destination_port) (fun _ => k)
      end
  end.

Definition discard {A : Type} (m : M P A) : M P unit := bind m (fun _ => ret tt).

Definition main (sys_platform : str) (args : namespace) : Main :=
  if negb (PyStr.eqb sys_platform (lit "linux")) then
    then_ (print [Text (lit "Error: This script is designed for Linux systems with iptables.")])
          (fun _ w => (SystemExit 1, w))
  else
    then_ (init (lit "firewall_rules.log")) (fun firewall_manager =>
    when_ (args_list args) (discard (list_current_rules firewall_manager)) (
    with_rule (args_add args)
      (fun chain source_ip port =>
         add_rule firewall_manager chain source_ip port (lit "tcp")) (
    with_rule (args_delete args)
      (fun chain source_ip port =>
         delete_rule firewall_manager chain source_ip port (lit "tcp")) (
    when_ (args_analyze args)
      (bind (analyze_traffic firewall_manager) (fun traffic_analysis =>
       bind (print [Text (lit "Traffic Analysis Results:")]) (fun _ =>
       print [Text (json_indent.dumps 2 traffic_analysis)]))) (
    when_ (args_save args) (save_configuration firewall_manager) (
    when_ (args_restore args) (restore_configuration firewall_manager) (
    fun w => (Returned, w)))))))).

End Main.

(** The commands each option of the command line asks for. *)
Section Requested.

Variable int_ : str -> option Z.
Variable args : namespace.

Definition requested_list : list (list str) :=
  if args_list args then [list_command] else [].

Definition requested_add : list (list str) :=
  match args_add args with
  | Some (chain, source_ip, port) =>
      match int_ port with
      | Some destination_port =>
          if validate_ip source_ip
          then [rule_command (lit "-A") chain source_ip destination_port (lit "tcp")]
          else []
      | None => []
      end
  | None => []
  end.

Definition requested_delete : list (list str) :=
  match args_delete args with
  | Some (chain, source_ip, port) =>
      match int_ port with
      | Some destination_port =>
          [rule_command (lit "-D") chain source_ip destination_port (lit "tcp")]
      | None => []
      end
  | None => []
  end.

Definition requested_analyze : list (list str) :=
  if args_analyze args then [netstat_command] else [].

Definition requested_save : list (list str) :=
  if args_save args then [list_command] else [].

(** The commands of a command line, in the order [main] runs them after the
    check of [sudo]; [--restore] asks for none. *)
Definition planned : list (list str) :=
  requested_list ++ requested_add ++ requested_delete
  ++ requested_analyze ++ requested_save.

End Requested.

(** The command can be launched in every state, whatever it then exits
    with. *)
Definition launches (P : platform) (cmd : list str) : Prop :=
  forall s, exists rc stdout s', spawn P cmd s = (Some (rc, stdout), s').

(** The option's port text reads as a number, when the option is given. *)
Definition port_reads (int_ : str -> option Z) (option : option (str * str * str)) : Prop :=
  match option with
  | Some (_, _, port) => int_ port <> None
  | None => True
  end.

Section Runs_of_main.

Variable P : platform.

(** From any world, [m] returns and hands over the commands [cs]. *)
Definition issues {A : Type} (m : M P A) (cs : list (list str)) : Prop :=
  forall w, exists a w', m w = (Ok a, w') /\ calls w' = calls w ++ cs.

(** From any world, the rest [k] of [main] ends with [e] after the commands
    [cs]. *)
Definition ends (k : Main P) (e : ending) (cs : list (list str)) : Prop :=
  forall w, exists w', k w = (e, w') /\ calls w' = calls w ++ cs.

End Runs_of_main.


(** Further material for the examples. *)
Module lab_main.

(** [int(s)] where [s] is a run of ASCII digits, the port texts of the
    examples; other texts are not read. *)
Definition int_digits (s : str) : option Z :=
  if negb (ipaddress.is_empty s) && forallb is_ascii_digit s
  then Some (Z.of_N (int10 s)) else None.

(** The reference machine without [netstat]: the command exits with status
    1. *)
Definition spawn_without_netstat (cmd : list str) (st : sim.state)
  : option (Z * str) * sim.state :=
  if sim.strs_eqb cmd netstat_command then (Some (1%Z, []), sim.tick st)
  else sim.spawn cmd st.

Definition without_netstat : platform :=
  Platform spawn_without_netstat sim.now is_ascii_digit.

Definition booted : world without_netstat :=
  World without_netstat sim.boot_state [] [] [] [].

Definition web : str * str * str := (lit "INPUT", lit "203.0.113.5", lit "443").

Definition every_option : namespace :=
  Namespace true (Some web) (Some web) true true true.

Definition add_http : namespace :=
  Namespace true (Some (lit "INPUT", lit "203.0.113.5", lit "http")) (Some web)
            true true true.

Definition delete_http : namespace :=
  Namespace true (Some web) (Some (lit "INPUT", lit "203.0.113.5", lit "http"))
            true true true.

Definition analyze_only : namespace :=
  Namespace false None None true false false.

End lab_main.

(** ** Dotted quads *)

(** The address [a.b.c.d], each octet written as [str] writes a number. *)
Definition dotted_quad (a b c d : N) : str :=
  dec a ++ ch "." :: dec b ++ ch "." :: dec c ++ ch "." :: dec d.

(** The numbers below 256. *)
Definition octet_values : list N := map N.of_nat (seq 0 256).

Definition ascii_digits : list char := map N.of_nat (seq 48 10).

(** The texts of one, two or three ASCII digits. *)
Definition short_numerals : list str :=
  map (fun c => [c]) ascii_digits
  ++ flat_map (fun c1 => map (fun c2 => [c1; c2]) ascii_digits) ascii_digits
  ++ flat_map (fun c1 =>
       flat_map (fun c2 => map (fun c3 => [c1; c2; c3]) ascii_digits)
                ascii_digits) ascii_digits.

(** * Properties *)

(** ** The rule engine *)

Section RuleEngine.

Variable P : platform.
Variable self : manager.

Lemma subprocess_run_exit (cmd : list str) (w : world P) rc out s' :
  spawn P cmd (os w) = (Some (rc, out), s') ->
  subprocess_run cmd w
  = (if (rc =? 0)%Z then Ok out else Raise (CalledProcessError rc cmd),
     World P s' (calls w ++ [cmd]) (log w) (console w) (disk w)).
Proof.
  intros H. unfold subprocess_run. rewrite H.
  destruct (rc =? 0)%Z; reflexivity.
Qed.

Lemma subprocess_run_calls (cmd : list str) (w : world P) :
  calls (snd (subprocess_run cmd w)) = calls w ++ [cmd].
Proof.
  unfold subprocess_run.
  destruct (spawn P cmd (os w)) as [[[rc out]|] s']; simpl;
    [destruct (rc =? 0)%Z|]; reflexivity.
Qed.

(** C1, as the code has it: the gate of [add_rule] is the source address
    alone.  An address that is no IP literal gives [False] and one error
    record, with no command run and the engine untouched, whatever the port;
    with a valid address the command is handed to the gateway exactly once,
    whatever the port. *)
Theorem add_rule_gate (chain source_ip : str) (destination_port : Z)
        (protocol : str) (w : world P) :
  (validate_ip source_ip = false ->
   add_rule self chain source_ip destination_port protocol w
   = (Ok false, logged w ERROR [Text (lit "Invalid IP address: " ++ source_ip)]))
  /\ (validate_ip source_ip = true ->
      calls (snd (add_rule self chain source_ip destination_port protocol w))
      = calls w ++ [rule_command (lit "-A") chain source_ip destination_port protocol]).
Proof.
  unfold add_rule. split; intros H; rewrite H; cbn [negb].
  - reflexivity.
  - unfold try_except, bind, subprocess_run.
    destruct (spawn P _ (os w)) as [[[rc out]|] s']; cbn;
      [destruct (rc =? 0)%Z|]; reflexivity.
Qed.

(** C2, as the code has it: whenever the engine turns the delete command
    down, with whatever non-zero status, [delete_rule] gives the same plain
    [False]; the status is kept in the logged exception only. *)
Theorem delete_rule_failure (chain source_ip : str) (destination_port : Z)
        (protocol : str) (w : world P) rc out s' :
  let cmd := rule_command (lit "-D") chain source_ip destination_port protocol in
  spawn P cmd (os w) = (Some (rc, out), s') ->
  rc <> 0%Z ->
  delete_rule self chain source_ip destination_port protocol w
  = (Ok false, after_failure w s' cmd "Failed to delete rule: " rc).
Proof.
  intros cmd H Hrc. unfold delete_rule, try_except, bind.
  fold cmd. rewrite (subprocess_run_exit _ _ H).
  destruct (Z.eqb_spec rc 0) as [->|_]; [contradiction|]. reflexivity.
Qed.

(** [delete_rule] hands its command to the gateway on every input: there is
    no gate before the command. *)
Lemma delete_rule_calls (chain source_ip : str) (destination_port : Z)
      (protocol : str) (w : world P) :
  calls (snd (delete_rule self chain source_ip destination_port protocol w))
  = calls w ++ [rule_command (lit "-D") chain source_ip destination_port protocol].
Proof.
  unfold delete_rule, try_except, bind, subprocess_run.
  destruct (spawn P _ (os w)) as [[[rc out]|] s']; cbn;
    [destruct (rc =? 0)%Z|]; reflexivity.
Qed.



(** C9, as the code has it: when the listing command exits with a non-zero
    status, [list_current_rules] does not raise; it returns the empty list
    [[]], which is not a text, prints nothing and leaves one error record
    carrying the exception. *)
Theorem list_current_rules_failure (w : world P) rc out s' :
  spawn P list_command (os w) = (Some (rc, out), s') ->
  rc <> 0%Z ->
  list_current_rules self w
  = (Ok (VList []), after_failure w s' list_command "Failed to list rules: " rc).
Proof.
  intros H Hrc. unfold list_current_rules, try_except, bind.
  fold list_command. rewrite (subprocess_run_exit _ _ H).
  destruct (Z.eqb_spec rc 0) as [->|_]; [contradiction|]. reflexivity.
Qed.

Lemma list_current_rules_success (w : world P) out s' :
  spawn P list_command (os w) = (Some (0%Z, out), s') ->
  list_current_rules self w
  = (Ok (VStr out),
     World P s' (calls w ++ [list_command]) (log w)
           (console w ++ [[Text (lit "Current Firewall Rules:")]; [Text out]])
           (disk w)).
Proof.
  intros H. unfold list_current_rules, try_except, bind.
  fold list_command. rewrite (subprocess_run_exit _ _ H). cbn.
  unfold print; cbn. rewrite <- app_assoc. reflexivity.
Qed.


End RuleEngine.

(** ** The socket pattern: the matcher against the language *)

Section RegexFacts.

Variable decimal : char -> bool.

Local Abbreviation in_cls := (re.in_cls decimal).
Local Abbreviation star := (re.star decimal).
Local Abbreviation match_here := (re.match_here decimal).
Local Abbreviation search := (re.search decimal).
Local Abbreviation lang := (re.lang decimal).
Local Abbreviation run := (re.run decimal).

Lemma star_spec (k : re.cls) (rest : str -> bool) (s : str) :
  star k rest s = true
  <-> exists r s', s = r ++ s' /\ Forall (fun c => in_cls k c = true) r
                   /\ rest s' = true.
Proof.
  induction s as [|c s IH]; cbn [re.star].
  - rewrite orb_false_r. split.
    + intros H. exists [], []. auto.
    + intros (r & s' & E & _ & H).
      symmetry in E. apply app_eq_nil in E as [-> ->]. exact H.
  - rewrite orb_true_iff, andb_true_iff, IH. split.
    + intros [H | (Hc & r & s' & -> & Hr & H)].
      * exists [], (c :: s). auto.
      * exists (c :: r), s'. auto.
    + intros (r & s' & E & Hr & H). destruct r as [|c' r].
      * left. cbn in E. subst s'. exact H.
      * right. cbn in E. injection E as -> ->. inversion Hr; subst.
        split; [assumption|]. exists r, s'. auto.
Qed.

Lemma match_here_spec (p : list re.item) (s : str) :
  match_here p s = true <-> exists m post, s = m ++ post /\ lang p m.
Proof.
  revert s. induction p as [|[k|k] p IH]; intros s; cbn [re.match_here re.lang].
  - split; [intros _; exists [], s; auto | auto].
  - destruct s as [|c s].
    + split; [discriminate|].
      intros (m & post & E & c & m' & -> & _). discriminate.
    + rewrite andb_true_iff, IH. split.
      * intros (Hc & m & post & -> & Hm).
        exists (c :: m), post. split; [reflexivity|]. exists c, m. auto.
      * intros (m & post & E & c' & m' & -> & Hc & Hm).
        cbn in E. injection E as -> ->. split; [assumption|]. exists m', post. auto.
  - destruct s as [|c s].
    + split; [discriminate|].
      intros (m & post & E & r & m' & -> & (Hne & _) & _).
      destruct r; [contradiction | discriminate].
    + rewrite andb_true_iff, star_spec. split.
      * intros (Hc & r & s' & -> & Hr & H).
        apply IH in H as (m & post & -> & Hm).
        exists ((c :: r) ++ m), post. split.
        { cbn. now rewrite <- app_assoc. }
        exists (c :: r), m. repeat split; [discriminate | auto | assumption].
      * intros (m & post & E & r & m' & -> & (Hne & Hr) & Hm).
        destruct r as [|c' r]; [contradiction|].
        cbn in E. injection E as -> ->. inversion Hr; subst.
        split; [assumption|].
        exists r, (m' ++ post). rewrite <- app_assoc.
        repeat split; [assumption|]. apply IH. exists m', post. auto.
Qed.

Lemma search_spec (p : list re.item) (s : str) :
  search p s = true <-> re.contains decimal p s.
Proof.
  unfold re.contains. induction s as [|c s IH]; cbn [re.search].
  - rewrite orb_false_r, match_here_spec. split.
    + intros (m & post & E & H). exists [], m, post. auto.
    + intros (pre & m & post & E & H).
      symmetry in E. apply app_eq_nil in E as [-> E].
      exists m, post. auto.
  - rewrite orb_true_iff, match_here_spec, IH. split.
    + intros [(m & post & E & H) | (pre & m & post & -> & H)].
      * exists [], m, post. auto.
      * exists (c :: pre), m, post. auto.
    + intros (pre & m & post & E & H). destruct pre as [|c' pre].
      * left. exists m, post. auto.
      * right. cbn in E. injection E as -> ->. exists pre, m, post. auto.
Qed.

Lemma run_digit (r : str) : run re.Digit r <-> re.digits decimal r.
Proof. reflexivity. Qed.

Lemma lang_lit (c : char) (p : list re.item) (m : str) :
  lang (re.One (re.Lit c) :: p) m <-> exists m', m = [c] ++ m' /\ lang p m'.
Proof.
  cbn [re.lang re.in_cls]. split.
  - intros (c' & m' & -> & Hc & H). apply N.eqb_eq in Hc as ->.
    exists m'. auto.
  - intros (m' & -> & H). exists c, m'. rewrite N.eqb_refl. auto.
Qed.

(** The matcher of the source finds exactly the lines that hold the
    address:port shape. *)
Lemma search_addr_port (line : str) :
  search re.addr_port_pattern line = true <-> re.has_addr_port decimal line.
Proof.
  rewrite search_spec. unfold re.contains, re.has_addr_port, re.addr_port_pattern.
  split.
  - intros (pre & m & post & -> & H).
    destruct H as (a & m1 & -> & Ha & H). apply lang_lit in H as (m2 & -> & H).
    destruct H as (b & m3 & -> & Hb & H). apply lang_lit in H as (m4 & -> & H).
    destruct H as (c & m5 & -> & Hc & H). apply lang_lit in H as (m6 & -> & H).
    destruct H as (d & m7 & -> & Hd & H). apply lang_lit in H as (m8 & -> & H).
    destruct H as (port & m9 & -> & Hp & H). cbn in H. subst m9.
    exists pre, a, b, c, d, port, post.
    repeat rewrite <- app_assoc. rewrite app_nil_l.
    repeat split; try apply Ha; try apply Hb; try apply Hc; try apply Hd;
      try apply Hp.
  - intros (pre & a & b & c & d & port & post & -> & Ha & Hb & Hc & Hd & Hp).
    exists pre,
      (a ++ [46%N] ++ b ++ [46%N] ++ c ++ [46%N] ++ d ++ [58%N] ++ port), post.
    split.
    { repeat rewrite <- app_assoc. reflexivity. }
    exists a, ([46%N] ++ b ++ [46%N] ++ c ++ [46%N] ++ d ++ [58%N] ++ port).
    split; [reflexivity|]. split; [exact Ha|]. apply lang_lit. eexists. split; [reflexivity|].
    exists b, ([46%N] ++ c ++ [46%N] ++ d ++ [58%N] ++ port).
    split; [reflexivity|]. split; [exact Hb|]. apply lang_lit. eexists. split; [reflexivity|].
    exists c, ([46%N] ++ d ++ [58%N] ++ port).
    split; [reflexivity|]. split; [exact Hc|]. apply lang_lit. eexists. split; [reflexivity|].
    exists d, ([58%N] ++ port).
    split; [reflexivity|]. split; [exact Hd|]. apply lang_lit. eexists. split; [reflexivity|].
    exists port, []. rewrite app_nil_r. split; [reflexivity|]. split; [exact Hp|reflexivity].
Qed.

End RegexFacts.

(** ** The traffic census *)

Lemma eqb_eq (a b : str) : PyStr.eqb a b = true <-> a = b.
Proof.
  revert b. induction a as [|x a IH]; intros [|y b]; cbn; try easy.
  rewrite andb_true_iff, N.eqb_eq, IH. split.
  - intros [-> ->]. reflexivity.
  - intros E. injection E as -> ->. auto.
Qed.

Lemma eqb_refl (a : str) : PyStr.eqb a a = true.
Proof. now apply eqb_eq. Qed.

Lemma eqb_sym (a b : str) : PyStr.eqb a b = PyStr.eqb b a.
Proof.
  destruct (PyStr.eqb a b) eqn:E, (PyStr.eqb b a) eqn:E'; try reflexivity.
  - apply eqb_eq in E as ->. now rewrite eqb_refl in E'.
  - apply eqb_eq in E' as ->. now rewrite eqb_refl in E.
Qed.

Lemma get_set (V : Type) (d : list (str * V)) (k : str) (v : V) (q : str) :
  dict.get (dict.set d k v) q = if PyStr.eqb k q then Some v else dict.get d q.
Proof.
  induction d as [|[k' v'] d IH]; cbn.
  - reflexivity.
  - destruct (PyStr.eqb k' k) eqn:E; cbn.
    + apply eqb_eq in E as ->. now destruct (PyStr.eqb k q).
    + rewrite IH. destruct (PyStr.eqb k' q) eqn:E', (PyStr.eqb k q) eqn:E'';
        try reflexivity.
      apply eqb_eq in E', E''. subst. now rewrite eqb_refl in E.
Qed.

Lemma split_cons (sep : char) (s : str) :
  exists p ps, split sep s = p :: ps.
Proof. unfold split. destruct (split1 sep s) as [p ps]. eauto. Qed.

Lemma nth_error_last (A : Type) (l : list A) (d : A) :
  l <> [] -> nth_error l (len l - 1) = Some (last l d).
Proof.
  induction l as [|x l IH]; [congruence|]. intros _.
  destruct l as [|y l]; [reflexivity|].
  specialize (IH ltac:(discriminate)). unfold len in *.
  cbn [List.length Nat.sub] in *. rewrite Nat.sub_0_r in *.
  cbn [nth_error]. rewrite IH. reflexivity.
Qed.

Lemma getitem_last (A : Type) (l : list A) (d : A) :
  l <> [] -> getitem l (-1) = Ok (last l d).
Proof.
  intros H. unfold getitem. cbn [Z.ltb Z.compare].
  destruct l as [|x l]; [congruence|].
  assert (E : (Z.of_nat (len (x :: l)) + -1 = Z.of_nat (len (x :: l) - 1))%Z)
    by (unfold len; cbn [List.length]; lia).
  assert (Hlt : (Z.of_nat (len (x :: l) - 1) <? 0)%Z = false)
    by (apply Z.ltb_ge; lia).
  cbv zeta. rewrite E, Hlt, Nat2Z.id, (nth_error_last d) by discriminate.
  reflexivity.
Qed.

Lemma getitem_nth (A : Type) (l : list A) (n : nat) (d : A) :
  (n < len l)%nat -> getitem l (Z.of_nat n) = Ok (nth n l d).
Proof.
  intros H. unfold getitem.
  assert (Hlt : (Z.of_nat n <? 0)%Z = false) by (apply Z.ltb_ge; lia).
  cbv zeta. rewrite !Hlt, Nat2Z.id.
  destruct (nth_error l n) as [x|] eqn:E.
  - now rewrite (nth_error_nth _ _ d E).
  - apply nth_error_None in E. unfold len in H. lia.
Qed.

Section CensusFacts.

Variable decimal : char -> bool.

Local Abbreviation visit := (census.visit decimal).
Local Abbreviation for_each := (census.for_each decimal).
Local Abbreviation summarize := (census.summarize decimal).
Local Abbreviation counted := (census.counted decimal).

Lemma visit_counted (line : str) (a : census.analysis) :
  visit line a = Ok (if counted line then census.record_line line a else a).
Proof.
  unfold census.visit, census.counted.
  destruct (re.search decimal re.addr_port_pattern line); cbn [andb];
    [|reflexivity].
  destruct (Nat.leb_spec 4 (len (split_ws line))) as [H|H]; [|reflexivity].
  assert (E0 : getitem (split_ws line) 0 = Ok (nth 0 (split_ws line) []))
    by (apply (getitem_nth _ [] (n := 0));
        eapply Nat.lt_le_trans; [|exact H]; lia).
  assert (E3 : getitem (split_ws line) 3 = Ok (nth 3 (split_ws line) []))
    by (apply (getitem_nth _ [] (n := 3));
        eapply Nat.lt_le_trans; [|exact H]; lia).
  rewrite E0, E3. cbv beta iota. rewrite (@getitem_last str _ []).
  - reflexivity.
  - destruct (split_cons (ch ":") (nth 3 (split_ws line) [])) as (p & ps & ->).
    discriminate.
Qed.

(** A line without the address:port shape leaves the dictionary as it is. *)
Lemma visit_no_pattern (line : str) (a : census.analysis) :
  ~ re.has_addr_port decimal line -> visit line a = Ok a.
Proof.
  intros H. rewrite visit_counted. unfold census.counted.
  destruct (re.search decimal re.addr_port_pattern line) eqn:E; [|reflexivity].
  apply search_addr_port in E. contradiction.
Qed.

Lemma counted_spec (line : str) :
  counted line = true
  <-> re.has_addr_port decimal line /\ (4 <= len (split_ws line))%nat.
Proof.
  unfold census.counted.
  now rewrite andb_true_iff, search_addr_port, Nat.leb_le.
Qed.

Lemma occurrences_cons (p line : str) (lines : list str) :
  census.occurrences p (line :: lines)
  = ((if PyStr.eqb (census.protocol_of line) p then 1 else 0)
     + census.occurrences p lines)%Z.
Proof.
  unfold census.occurrences, len. cbn [filter].
  destruct (PyStr.eqb (census.protocol_of line) p); cbn [List.length]; lia.
Qed.

Lemma occurrences_nonneg (p : str) (lines : list str) :
  (0 <= census.occurrences p lines)%Z.
Proof. unfold census.occurrences. lia. Qed.

(** The loop never raises; it appends the ports of the counted lines in
    scan order and adds, for every protocol, the number of counted lines that
    start with it. *)
Lemma for_each_spec (lines : list str) (a : census.analysis) :
  exists a',
    for_each lines a = Ok a'
    /\ census.total_connections a' = census.total_connections a
    /\ census.listening_ports a'
       = census.listening_ports a ++ map census.port_of (filter counted lines)
    /\ (forall p,
           dict.get (census.connection_protocols a') p
           = if (census.occurrences p (filter counted lines) =? 0)%Z
             then dict.get (census.connection_protocols a) p
             else Some (census.tally (census.connection_protocols a) p
                        + census.occurrences p (filter counted lines))%Z).
Proof.
  revert a. induction lines as [|line lines IH]; intros a.
  - exists a. cbn. rewrite app_nil_r. auto.
  - cbn [census.for_each filter]. rewrite visit_counted.
    destruct (counted line) eqn:Hc.
    + destruct (IH (census.record_line line a)) as (a' & -> & Ht & Hp & Hd).
      exists a'. split; [reflexivity|]. split; [exact Ht|]. split.
      * rewrite Hp. cbn. now rewrite <- app_assoc.
      * intros p. rewrite Hd, occurrences_cons.
        cbn [census.record_line census.connection_protocols].
        unfold census.tally. rewrite !get_set.
        pose proof (occurrences_nonneg p (filter counted lines)) as Hn.
        set (n := census.occurrences p (filter counted lines)) in *.
        destruct (PyStr.eqb (census.protocol_of line) p) eqn:E.
        -- apply eqb_eq in E. subst p.
           destruct (dict.get (census.connection_protocols a)
                       (census.protocol_of line)) as [m|];
             destruct (Z.eqb_spec n 0), (Z.eqb_spec (1 + n) 0); try lia;
             f_equal; lia.
        -- rewrite Z.add_0_l. reflexivity.
    + exact (IH a).
Qed.

(** C8: on every text the census returns a dictionary (it never raises);
    [total_connections] is the number of lines, malformed or not; the ports
    are those of the counted lines, in scan order; each protocol is counted
    once per counted line that starts with it and is absent when there is
    none; and the counted lines are exactly those that hold the address:port
    shape and have at least four fields. *)
Theorem summarize_spec (text : str) :
  exists a,
    summarize text = Ok a
    /\ census.total_connections a = Z.of_nat (len (split 10%N text))
    /\ census.listening_ports a
       = map census.port_of (filter counted (split 10%N text))
    /\ (forall p,
           dict.get (census.connection_protocols a) p
           = let n := census.occurrences p (filter counted (split 10%N text)) in
             if (n =? 0)%Z then None else Some n)
    /\ (forall line,
           counted line = true
           <-> re.has_addr_port decimal line /\ (4 <= len (split_ws line))%nat).
Proof.
  unfold census.summarize.
  destruct (for_each_spec (split 10%N text)
              (census.Analysis (Z.of_nat (len (split 10%N text))) [] []))
    as (a & Ha & Ht & Hp & Hd).
  exists a. split; [exact Ha|]. split; [exact Ht|]. split; [exact Hp|]. split.
  - intros p. rewrite Hd. reflexivity.
  - exact counted_spec.
Qed.

Lemma tcp_line_has_addr_port :
  (forall c, is_ascii_digit c = true -> decimal c = true) ->
  re.has_addr_port decimal census.tcp_line.
Proof.
  intros H.
  exists (lit "tcp        0      0 "), (lit "0"), (lit "0"), (lit "0"), (lit "0"),
    (lit "22"), (lit "              0.0.0.0:*               LISTEN").
  split; [reflexivity|].
  repeat split; try discriminate; repeat constructor; apply H; reflexivity.
Qed.

Lemma udp_line_has_addr_port :
  (forall c, is_ascii_digit c = true -> decimal c = true) ->
  re.has_addr_port decimal census.udp_line.
Proof.
  intros H.
  exists (lit "udp        0      0 "), (lit "127"), (lit "0"), (lit "0"), (lit "1"),
    (lit "53"), (lit "            0.0.0.0:*                      ").
  split; [reflexivity|].
  repeat split; try discriminate; repeat constructor; apply H; reflexivity.
Qed.

(** C7: on the two lines of the example the census counts tcp once and udp
    once and lists the ports 22 and 53 in that order; and a line without the
    address:port shape leaves the dictionary, its protocol counts included,
    as it was. *)
Theorem summarize_example :
  (forall c, is_ascii_digit c = true -> decimal c = true) ->
  summarize (census.tcp_line ++ [10%N] ++ census.udp_line)
  = Ok (census.Analysis 2 [lit "22"; lit "53"] [(lit "tcp", 1%Z); (lit "udp", 1%Z)])
  /\ (forall line a, ~ re.has_addr_port decimal line -> visit line a = Ok a).
Proof.
  intros H. split; [|exact visit_no_pattern].
  unfold census.summarize.
  replace (split 10%N (census.tcp_line ++ [10%N] ++ census.udp_line))
    with [census.tcp_line; census.udp_line] by (vm_compute; reflexivity).
  cbn [census.for_each]. rewrite visit_counted.
  assert (Ht : counted census.tcp_line = true).
  { apply counted_spec. split; [now apply tcp_line_has_addr_port|].
    vm_compute. lia. }
  assert (Hu : counted census.udp_line = true).
  { apply counted_spec. split; [now apply udp_line_has_addr_port|].
    vm_compute. lia. }
  rewrite Ht, visit_counted, Hu. vm_compute. reflexivity.
Qed.

End CensusFacts.

(** When the socket listing succeeds, [analyze_traffic] returns the census
    of the captured text and leaves one record at level INFO. *)
Lemma analyze_traffic_success (P : platform) (self : manager) (w : world P)
      out s' :
  spawn P netstat_command (os w) = (Some (0%Z, out), s') ->
  exists a,
    census.summarize (decimal P) out = Ok a
    /\ analyze_traffic self w
       = (Ok (census.to_value a),
          World P s' (calls w ++ [netstat_command])
                (log w ++ [(INFO, [Text (lit "Traffic Analysis Completed")])])
                (console w) (disk w)).
Proof.
  intros H.
  destruct (for_each_spec (decimal P) (split 10%N out)
              (census.Analysis (Z.of_nat (len (split 10%N out))) [] []))
    as (a & Ha & _).
  exists a. split; [exact Ha|].
  unfold analyze_traffic, try_except, bind.
  fold netstat_command. rewrite (subprocess_run_exit _ _ H).
  cbn [Z.eqb]. unfold lift, census.summarize. rewrite Ha. reflexivity.
Qed.

(** ** Decimal numerals *)

Lemma int10_snoc (l : str) (d : char) :
  int10 (l ++ [d]) = (int10 l * 10 + digit_val d)%N.
Proof. unfold int10. now rewrite fold_left_app. Qed.


Lemma pow10_succ (w : nat) : (10 ^ N.of_nat (S w) = 10 * 10 ^ N.of_nat w)%N.
Proof. now rewrite Nat2N.inj_succ, N.pow_succ_r'. Qed.

Lemma digit_is_digit (n : N) : is_ascii_digit (48 + n mod 10)%N = true.
Proof.
  unfold is_ascii_digit. pose proof (N.mod_lt n 10 ltac:(discriminate)).
  apply andb_true_iff. split; apply N.leb_le; [apply N.le_add_r | lia].
Qed.

Lemma digits_le_digit (fuel : nat) (n : N) :
  forallb is_ascii_digit (digits_le fuel n) = true.
Proof.
  revert n. induction fuel as [|fuel IH]; intros n; cbn [digits_le forallb].
  - reflexivity.
  - rewrite digit_is_digit. destruct (n / 10 =? 0)%N; [reflexivity | apply IH].
Qed.

Lemma digits_le_len (fuel w : nat) (n : N) :
  (n < 10 ^ N.of_nat (S w))%N -> (len (digits_le fuel n) <= S w)%nat.
Proof.
  unfold len. revert w n. induction fuel as [|fuel IH]; intros w n H;
    cbn [digits_le List.length]; [lia|].
  destruct (N.eqb_spec (n / 10) 0) as [E|E]; cbn [List.length]; [lia|].
  destruct w as [|w].
  - exfalso. apply E. apply N.div_small. exact H.
  - apply le_n_S, IH. rewrite pow10_succ in H.
    apply N.Div0.div_lt_upper_bound. exact H.
Qed.

Lemma digits_le_val (fuel : nat) (n : N) :
  (n < 10 ^ N.of_nat fuel)%N -> int10 (rev (digits_le fuel n)) = n.
Proof.
  revert n. induction fuel as [|fuel IH]; intros n H.
  - cbn in *. lia.
  - cbn [digits_le rev]. rewrite int10_snoc. unfold digit_val.
    rewrite (N.add_comm 48), N.add_sub.
    pose proof (N.div_mod n 10 ltac:(discriminate)) as Hn.
    destruct (N.eqb_spec (n / 10) 0) as [E|E].
    + cbn. rewrite E in Hn. lia.
    + rewrite IH; [lia|]. rewrite pow10_succ in H.
      apply N.Div0.div_lt_upper_bound. exact H.
Qed.

Lemma enough_fuel (n : N) : (n < 10 ^ N.of_nat (S (N.to_nat (N.log2 n))))%N.
Proof.
  rewrite Nat2N.inj_succ, N2Nat.id.
  destruct (N.eq_0_gt_0_cases n) as [->|H]; [reflexivity|].
  apply N.log2_spec in H as [_ H].
  eapply N.lt_le_trans; [exact H|].
  apply N.pow_le_mono_l. lia.
Qed.


(** ** Time stamps *)







(** ** JSON strings: escaping and scanning *)

Ltac eval_lit :=
  repeat match goal with
         | |- context [lit ?s] =>
             let v := eval vm_compute in (lit s) in change (lit s) with v
         end.

Lemma hex_val_hex_digit (d : N) : (d < 16)%N -> hex_val (hex_digit d) = Some d.
Proof.
  intros H. unfold hex_digit, hex_val, is_ascii_digit.
  destruct (N.ltb_spec d 10).
  - replace ((48 <=? 48 + d) && (48 + d <=? 57))%N with true.
    + f_equal. lia.
    + symmetry. apply andb_true_iff. split; apply N.leb_le; lia.
  - replace ((48 <=? 87 + d) && (87 + d <=? 57))%N with false.
    + replace ((97 <=? 87 + d) && (87 + d <=? 102))%N with true.
      * f_equal. lia.
      * symmetry. apply andb_true_iff. split; apply N.leb_le; lia.
    + symmetry. apply andb_false_iff. right. apply N.leb_gt. lia.
Qed.

Lemma decode_hex4 (n : N) :
  (n < 65536)%N ->
  json.decode_uXXXX (hex_digit (N.shiftr n 12 mod 16))
    (hex_digit (N.shiftr n 8 mod 16)) (hex_digit (N.shiftr n 4 mod 16))
    (hex_digit (n mod 16))
  = Some n.
Proof.
  intros H. unfold json.decode_uXXXX.
  rewrite !hex_val_hex_digit by (apply N.mod_lt; discriminate).
  f_equal. rewrite !N.shiftr_div_pow2.
  change (2 ^ 12)%N with 4096%N. change (2 ^ 8)%N with 256%N.
  change (2 ^ 4)%N with 16%N.
  zify. Z.to_euclidean_division_equations. lia.
Qed.

Lemma land_mul_pow2_small (a b k : N) :
  (b < 2 ^ k)%N -> N.land (a * 2 ^ k) b = 0%N.
Proof.
  intros H. apply N.bits_inj. intros m. rewrite N.land_spec, N.bits_0.
  destruct (N.lt_ge_cases m k) as [Hm|Hm].
  - now rewrite N.mul_pow2_bits_low.
  - destruct (N.eq_0_gt_0_cases b) as [->|Hb];
      [now rewrite N.bits_0, andb_false_r|].
    rewrite (N.bits_above_log2 b m), andb_false_r; [reflexivity|].
    apply N.log2_lt_pow2 in H; [lia|assumption].
Qed.

Lemma lor_mul_pow2_small (a b k : N) :
  (b < 2 ^ k)%N -> N.lor (a * 2 ^ k) b = (a * 2 ^ k + b)%N.
Proof.
  intros H.
  rewrite <- N.lxor_lor, <- N.add_nocarry_lxor; auto using land_mul_pow2_small.
Qed.

Lemma halves (n : N) :
  (n < 1048576)%N ->
  json.high_half n = (55296 + n / 1024)%N /\ json.low_half n = (56320 + n mod 1024)%N.
Proof.
  intros H. unfold json.high_half, json.low_half.
  change 1023%N with (N.ones 10). rewrite !N.land_ones, N.shiftr_div_pow2.
  change 55296%N with (54 * 2 ^ 10)%N. change 56320%N with (55 * 2 ^ 10)%N.
  rewrite !lor_mul_pow2_small by (apply N.mod_lt; discriminate).
  change (2 ^ 10)%N with 1024%N. split; [|reflexivity].
  f_equal. apply N.mod_small. apply N.Div0.div_lt_upper_bound. exact H.
Qed.

Lemma join_halves (n : N) :
  (n < 1048576)%N ->
  json.join_surrogates (json.high_half n) (json.low_half n) = (65536 + n)%N.
Proof.
  intros H. destruct (halves H) as [-> ->]. unfold json.join_surrogates.
  rewrite !(N.add_comm _ (_ / _)), !(N.add_comm _ (_ mod _)), !N.add_sub.
  rewrite N.shiftl_mul_pow2, lor_mul_pow2_small
    by (apply N.mod_lt; discriminate).
  change (2 ^ 10)%N with 1024%N.
  pose proof (N.div_mod n 1024 ltac:(discriminate)). lia.
Qed.

Lemma halves_range (n : N) :
  (n < 1048576)%N ->
  (json.high_half n < 65536)%N /\ (json.low_half n < 65536)%N
  /\ json.is_high_surrogate (json.high_half n) = true
  /\ json.is_low_surrogate (json.low_half n) = true.
Proof.
  intros H. destruct (halves H) as [-> ->].
  assert (n / 1024 < 1024)%N by (apply N.Div0.div_lt_upper_bound; exact H).
  pose proof (N.mod_lt n 1024 ltac:(discriminate)).
  unfold json.is_high_surrogate, json.is_low_surrogate.
  generalize dependent (n / 1024)%N. generalize dependent (n mod 1024)%N.
  intros r Hr q Hq.
  repeat split; try lia; apply andb_true_iff; split; apply N.leb_le; lia.
Qed.

Lemma scanstring_u (h1 h2 h3 h4 : char) (s3 : str) :
  json.scanstring (92%N :: 117%N :: h1 :: h2 :: h3 :: h4 :: s3)
  = match json.decode_uXXXX h1 h2 h3 h4 with
    | None => None
    | Some uni =>
        match s3 with
        | b :: u :: g1 :: g2 :: g3 :: g4 :: s4 =>
            if json.is_high_surrogate uni && (b =? 92)%N && (u =? 117)%N
            then match json.decode_uXXXX g1 g2 g3 g4 with
                 | None => None
                 | Some uni2 =>
                     if json.is_low_surrogate uni2
                     then json.cons_char (json.join_surrogates uni uni2)
                                         (json.scanstring s4)
                     else json.cons_char uni (json.scanstring s3)
                 end
            else json.cons_char uni (json.scanstring s3)
        | _ => json.cons_char uni (json.scanstring s3)
        end
    end.
Proof. reflexivity. Qed.

Lemma scanstring_plain (c : char) (t : str) :
  (c =? 34)%N = false -> (c =? 92)%N = false -> (c <? 32)%N = false ->
  json.scanstring (c :: t) = json.cons_char c (json.scanstring t).
Proof. intros H1 H2 H3. cbn [json.scanstring]. now rewrite H1, H2, H3. Qed.

(** Scanning what was written for one character gives the character back. *)
Lemma scanstring_char (c : char) (t : str) :
  scalar c = true ->
  json.scanstring (json.escape_char c ++ t)
  = json.cons_char c (json.scanstring t).
Proof.
  intros Hs. unfold json.escape_char, json.hex_escape. eval_lit.
  destruct (N.eqb_spec c 92) as [->|N92]; [reflexivity|].
  destruct (N.eqb_spec c 34) as [->|N34]; [reflexivity|].
  destruct (N.eqb_spec c 8) as [->|N8]; [reflexivity|].
  destruct (N.eqb_spec c 12) as [->|N12]; [reflexivity|].
  destruct (N.eqb_spec c 10) as [->|N10]; [reflexivity|].
  destruct (N.eqb_spec c 13) as [->|N13]; [reflexivity|].
  destruct (N.eqb_spec c 9) as [->|N9]; [reflexivity|].
  destruct ((32 <=? c) && (c <=? 126))%N eqn:Hp.
  - apply andb_true_iff in Hp as [Hlo Hhi]. apply N.leb_le in Hlo.
    apply scanstring_plain.
    + now apply N.eqb_neq.
    + now apply N.eqb_neq.
    + apply N.ltb_ge. exact Hlo.
  - destruct (N.ltb_spec c 65536) as [Hc|Hc].
    + unfold hex4. cbn [app]. rewrite scanstring_u, decode_hex4 by exact Hc.
      assert (Hh : json.is_high_surrogate c = false).
      { unfold scalar in Hs. unfold json.is_high_surrogate.
        apply andb_false_iff.
        apply orb_true_iff in Hs as [Hs|Hs].
        - left. apply N.ltb_lt in Hs. apply N.leb_gt. exact Hs.
        - right. apply andb_true_iff in Hs as [Hs _]. apply N.leb_le in Hs.
          apply N.leb_gt. lia. }
      rewrite Hh. cbn [andb].
      destruct t as [|? [|? [|? [|? [|? [|? ?]]]]]]; reflexivity.
    + assert (Hn : (c - 65536 < 1048576)%N).
      { unfold scalar in Hs. apply orb_true_iff in Hs as [Hs|Hs].
        - apply N.ltb_lt in Hs. lia.
        - apply andb_true_iff in Hs as [_ Hs]. apply N.ltb_lt in Hs. lia. }
      destruct (halves_range Hn) as (Hhi & Hlo & Hh & Hl).
      unfold hex4. cbn [app].
      rewrite scanstring_u, decode_hex4 by exact Hhi.
      rewrite Hh. cbn [andb N.eqb Pos.eqb].
      rewrite decode_hex4 by exact Hlo. rewrite Hl, join_halves by exact Hn.
      replace (65536 + (c - 65536))%N with c by lia. reflexivity.
Qed.

(** Scanning what [encode_basestring_ascii] wrote, after the opening quote,
    gives the string back and stops after the closing quote. *)
Lemma scanstring_escape (s rest : str) :
  forallb scalar s = true ->
  json.scanstring (flat_map json.escape_char s ++ 34%N :: rest) = Some (s, rest).
Proof.
  induction s as [|c s IH]; intros H.
  - reflexivity.
  - cbn [forallb] in H. apply andb_true_iff in H as [Hc Hs].
    cbn [flat_map]. rewrite <- app_assoc, scanstring_char by exact Hc.
    rewrite IH by exact Hs. reflexivity.
Qed.

(** ** JSON documents: the fuel of the decoder *)

Ltac lens := cbv [len str char] in *; cbn [List.length] in *.

Lemma skip_ws_len (s : str) : (len (json.skip_ws s) <= len s)%nat.
Proof.
  lens. induction s as [|c s IH]; cbn [json.skip_ws List.length]; [lia|].
  destruct (json.is_ws c); cbn [List.length]; lia.
Qed.

Lemma cons_char_some (c : char) (o : option (str * str)) (t r : str) :
  json.cons_char c o = Some (t, r) ->
  exists t', o = Some (t', r) /\ t = c :: t'.
Proof.
  destruct o as [[t' r']|]; cbn; [|discriminate].
  intros H. injection H as <- <-. eauto.
Qed.

Lemma scanstring_len (s t r : str) :
  json.scanstring s = Some (t, r) -> (len r < len s)%nat.
Proof.
  lens. revert t r.
  induction s as [s IH] using (well_founded_induction
                                 (Wf_nat.well_founded_ltof _ (@List.length N))).
  unfold Wf_nat.ltof in IH. intros t r H.
  destruct s as [|c s1]; [discriminate|]. cbn [json.scanstring] in H.
  destruct (c =? 34)%N.
  { injection H as <- <-. cbn. lia. }
  destruct (c =? 92)%N.
  - destruct s1 as [|esc s2]; [discriminate|].
    destruct (esc =? 117)%N.
    + destruct s2 as [|h1 [|h2 [|h3 [|h4 s3]]]]; try discriminate.
      destruct (json.decode_uXXXX h1 h2 h3 h4) as [uni|]; [|discriminate].
      assert (Hplain : forall t0, json.cons_char uni (json.scanstring s3) = Some (t0, r) ->
                             (List.length r < List.length s3)%nat).
      { intros t0 H0. apply cons_char_some in H0 as (t' & H0 & _).
        eapply IH; [|exact H0]. cbn. lia. }
      destruct s3 as [|b [|u [|g1 [|g2 [|g3 [|g4 s4]]]]]];
        try (apply Hplain in H; cbn in *; lia).
      destruct (json.is_high_surrogate uni && (b =? 92)%N && (u =? 117)%N);
        [|apply Hplain in H; cbn in *; lia].
      destruct (json.decode_uXXXX g1 g2 g3 g4) as [uni2|]; [|discriminate].
      destruct (json.is_low_surrogate uni2);
        [|apply Hplain in H; cbn in *; lia].
      apply cons_char_some in H as (t' & H & _).
      apply IH in H; cbn in *; lia.
    + destruct (json.backslash esc) as [c'|]; [|discriminate].
      apply cons_char_some in H as (t' & H & _).
      apply IH in H; cbn in *; lia.
  - destruct (c <? 32)%N; [discriminate|].
    apply cons_char_some in H as (t' & H & _).
    apply IH in H; cbn in *; lia.
Qed.

Lemma strip_prefix_len (p s r : str) :
  json.strip_prefix p s = Some r -> len s = (len p + len r)%nat.
Proof.
  lens. revert s. induction p as [|x p IH]; intros [|y s] H; cbn in *;
    try discriminate.
  - injection H as <-. reflexivity.
  - injection H as <-. reflexivity.
  - destruct (x =? y)%N; [|discriminate]. apply IH in H. lia.
Qed.

Lemma span_digits_len (s ds r : str) :
  json.span_digits s = (ds, r) -> len s = (len ds + len r)%nat.
Proof.
  lens. revert ds r. induction s as [|c s IH]; intros ds r H; cbn in H.
  - injection H as <- <-. reflexivity.
  - destruct (is_ascii_digit c).
    + destruct (json.span_digits s) as [ds' r'] eqn:E.
      injection H as <- <-. specialize (IH _ _ eq_refl). cbn. lia.
    + injection H as <- <-. reflexivity.
Qed.

Lemma integer_digits_len (sign s lx r : str) :
  json.integer_digits sign s = Some (lx, r) -> (len r < len s)%nat.
Proof.
  unfold json.integer_digits. intros H. destruct s as [|c s']; [discriminate|].
  destruct (c =? 48)%N.
  - injection H as _ <-. lens. lia.
  - destruct (is_ascii_digit c); [|discriminate].
    destruct (json.span_digits s') as [ds r'] eqn:E.
    injection H as _ <-. apply span_digits_len in E. lens. lia.
Qed.

Lemma match_integer_len (s lx r : str) :
  json.match_integer s = Some (lx, r) -> (len r < len s)%nat.
Proof.
  unfold json.match_integer. intros H. destruct s as [|c s']; [discriminate|].
  destruct (c =? 45)%N; apply integer_digits_len in H; lens; lia.
Qed.

Lemma match_frac_len (s f r : str) :
  json.match_frac s = (f, r) -> (len r <= len s)%nat.
Proof.
  unfold json.match_frac. intros H. destruct s as [|c s'].
  - injection H as _ <-. lia.
  - destruct (c =? 46)%N.
    + destruct (json.span_digits s') as [[|d ds] r'] eqn:E.
      * injection H as _ <-. lia.
      * injection H as _ <-. apply span_digits_len in E. lens. lia.
    + injection H as _ <-. lia.
Qed.

Lemma match_exp_len (s e r : str) :
  json.match_exp s = (e, r) -> (len r <= len s)%nat.
Proof.
  unfold json.match_exp. intros H. destruct s as [|c s'].
  - injection H as _ <-. lia.
  - destruct ((c =? 101)%N || (c =? 69)%N).
    + destruct (match s' with
                | [] => ([], s')
                | c0 :: s'' =>
                    if (c0 =? 43)%N || (c0 =? 45)%N then ([c0], s'') else ([], s')
                end) as [sg s1] eqn:Es.
      assert (Hs1 : (len s1 <= len s')%nat).
      { destruct s' as [|c0 s'']; [injection Es as _ <-; lia|].
        destruct ((c0 =? 43)%N || (c0 =? 45)%N); injection Es as _ <-; lens; lia. }
      destruct (json.span_digits s1) as [[|d ds] r'] eqn:E.
      * injection H as _ <-. lia.
      * injection H as _ <-. apply span_digits_len in E. lens. lia.
    + injection H as _ <-. lia.
Qed.

Lemma scan_number_len (s : str) (v : value) (r : str) :
  json.scan_number s = Some (v, r) -> (len r < len s)%nat.
Proof.
  unfold json.scan_number. intros H.
  destruct (json.match_integer s) as [[lx r0]|] eqn:Ei; [|discriminate].
  destruct (json.match_frac r0) as [fr r1] eqn:Ef.
  destruct (json.match_exp r1) as [ex r2] eqn:Ee.
  apply match_integer_len in Ei. apply match_frac_len in Ef.
  apply match_exp_len in Ee.
  assert (r = r2) by (destruct fr, ex; injection H as _ <-; reflexivity).
  subst r. lia.
Qed.

Lemma scan_constant_len (s : str) (v : value) (r : str) :
  json.scan_constant s = Some (v, r) -> (len r < len s)%nat.
Proof.
  unfold json.scan_constant. intros H.
  repeat match type of H with
         | match json.strip_prefix ?p s with _ => _ end = _ =>
             let E := fresh "E" in
             destruct (json.strip_prefix p s) eqn:E;
             [injection H as _ <-; apply strip_prefix_len in E;
              revert E; vm_compute (len p); lia|]
         | match json.scan_number s with _ => _ end = _ =>
             let E := fresh "E" in
             destruct (json.scan_number s) as [[v' r']|] eqn:E;
             [injection H as _ <-; now apply scan_number_len in E|]
         end.
  discriminate.
Qed.

Lemma scan_frugal (fuel : nat) :
  json.frugal json.scan_once fuel /\ json.frugal json.object_pairs fuel
  /\ json.frugal json.array_items fuel.
Proof.
  induction fuel as [|fuel (IHs & IHo & IHa)].
  { repeat split; discriminate. }
  split; [|split]; intros s a r H.
  - destruct s as [|c s']; [discriminate|]. cbn [json.scan_once] in H.
    pose proof (skip_ws_len s') as Hw.
    destruct (c =? 34)%N eqn:E34.
    { destruct (json.scanstring s') as [[t r0]|] eqn:Es; [|discriminate].
      injection H as <- <-. pose proof (scanstring_len _ Es) as Hl.
      split; [lens; lia|].
      intros [|f'] Hf; [lens; lia|]. cbn [json.scan_once].
      now rewrite E34, Es. }
    destruct (c =? 123)%N eqn:E123.
    { destruct (json.skip_ws s') as [|c1 r1] eqn:Ew; [discriminate|].
      destruct (c1 =? 125)%N eqn:E125.
      { injection H as <- <-. split; [lens; lia|].
        intros [|f'] Hf; [lens; lia|]. cbn [json.scan_once].
        now rewrite E34, E123, Ew, E125. }
      destruct (c1 =? 34)%N eqn:E34'; [|discriminate].
      destruct (json.object_pairs fuel r1) as [[ps r0]|] eqn:Eo; [|discriminate].
      injection H as <- <-. apply IHo in Eo as [Hl Hf0].
      split; [lens; lia|].
      intros [|f'] Hf; [lens; lia|]. cbn [json.scan_once].
      rewrite E34, E123, Ew, E125, E34', Hf0; [reflexivity | lens; lia]. }
    destruct (c =? 91)%N eqn:E91.
    { destruct (json.skip_ws s') as [|c1 r1] eqn:Ew; [discriminate|].
      destruct (c1 =? 93)%N eqn:E93.
      { injection H as <- <-. split; [lens; lia|].
        intros [|f'] Hf; [lens; lia|]. cbn [json.scan_once].
        now rewrite E34, E123, E91, Ew, E93. }
      destruct (json.array_items fuel (c1 :: r1)) as [[items r0]|] eqn:Ea;
        [|discriminate].
      injection H as <- <-. apply IHa in Ea as [Hl Hf0].
      split; [lens; lia|].
      intros [|f'] Hf; [lens; lia|]. cbn [json.scan_once].
      rewrite E34, E123, E91, Ew, E93, Hf0; [reflexivity | lens; lia]. }
    split; [now apply scan_constant_len in H|].
    apply scan_constant_len in H as Hl.
    intros [|f'] Hf; [lens; lia|]. cbn [json.scan_once].
    now rewrite E34, E123, E91.
  - cbn [json.object_pairs] in H.
    destruct (json.scanstring s) as [[key r0]|] eqn:Ek; [|discriminate].
    pose proof (scanstring_len _ Ek) as Hk.
    pose proof (skip_ws_len r0) as Hw0.
    destruct (json.skip_ws r0) as [|colon r1] eqn:Ew0; [discriminate|].
    destruct (negb (colon =? 58)%N) eqn:Ec; [discriminate|].
    pose proof (skip_ws_len r1) as Hw1.
    destruct (json.scan_once fuel (json.skip_ws r1)) as [[v r2]|] eqn:Ev;
      [|discriminate].
    apply IHs in Ev as [Hlv Hfv].
    pose proof (skip_ws_len r2) as Hw2.
    destruct (json.skip_ws r2) as [|nextchar r3] eqn:Ew2; [discriminate|].
    destruct (nextchar =? 125)%N eqn:En.
    { injection H as <- <-. split; [lens; lia|].
      intros [|f'] Hf; [lens; lia|]. cbn [json.object_pairs].
      rewrite Ek, Ew0, Ec, Hfv, Ew2, En; [reflexivity | lens; lia]. }
    destruct (negb (nextchar =? 44)%N) eqn:En'; [discriminate|].
    pose proof (skip_ws_len r3) as Hw3.
    destruct (json.skip_ws r3) as [|q r4] eqn:Ew3; [discriminate|].
    destruct (negb (q =? 34)%N) eqn:Eq; [discriminate|].
    destruct (json.object_pairs fuel r4) as [[ps r5]|] eqn:Eo; [|discriminate].
    injection H as <- <-. apply IHo in Eo as [Hlo Hfo].
    split; [lens; lia|].
    intros [|f'] Hf; [lens; lia|]. cbn [json.object_pairs].
    rewrite Ek, Ew0, Ec, Hfv, Ew2, En, En', Ew3, Eq, Hfo;
      [reflexivity | lens; lia | lens; lia].
  - cbn [json.array_items] in H.
    destruct (json.scan_once fuel s) as [[v r0]|] eqn:Ev; [|discriminate].
    apply IHs in Ev as [Hlv Hfv].
    pose proof (skip_ws_len r0) as Hw0.
    destruct (json.skip_ws r0) as [|nextchar r1] eqn:Ew0; [discriminate|].
    destruct (nextchar =? 93)%N eqn:En.
    { injection H as <- <-. split; [lens; lia|].
      intros [|f'] Hf; [lens; lia|]. cbn [json.array_items].
      rewrite Hfv, Ew0, En; [reflexivity | lens; lia]. }
    destruct (negb (nextchar =? 44)%N) eqn:En'; [discriminate|].
    pose proof (skip_ws_len r1) as Hw1.
    destruct (json.array_items fuel (json.skip_ws r1)) as [[items r2]|] eqn:Ea;
      [|discriminate].
    injection H as <- <-. apply IHa in Ea as [Hla Hfa].
    split; [lens; lia|].
    intros [|f'] Hf; [lens; lia|]. cbn [json.array_items].
    rewrite Hfv, Ew0, En, En', Hfa; [reflexivity | lens; lia | lens; lia].
Qed.

(** The fuel [loads] starts with is enough: no larger amount changes the
    result. *)
Lemma loads_fuel (s : str) (fuel : nat) :
  (len s <= fuel)%nat ->
  json.scan_once fuel (json.skip_ws s)
  = json.scan_once (S (len s)) (json.skip_ws s).
Proof.
  intros Hf. pose proof (skip_ws_len s) as Hw.
  destruct (json.scan_once fuel (json.skip_ws s)) as [[v r]|] eqn:E.
  - apply scan_frugal in E as [Hl E]. symmetry. apply E. lia.
  - destruct (json.scan_once (S (len s)) (json.skip_ws s)) as [[v r]|] eqn:E';
      [|reflexivity].
    apply scan_frugal in E' as [Hl E']. rewrite E' in E; [discriminate | lia].
Qed.

(** ** JSON documents: a dictionary of two strings *)

Lemma dumps_two_strings (k1 v1 k2 v2 : str) :
  json.dumps (VDict [(k1, VStr v1); (k2, VStr v2)]) = json.two_strings k1 v1 k2 v2.
Proof.
  unfold json.dumps, json.two_strings. cbn [json.encode map fst snd json.join].
  unfold json.encode_basestring_ascii, json.newline_indent. eval_lit.
  cbn [app repeat Nat.mul Nat.add].
  repeat first [rewrite <- app_assoc | progress cbn [app]]. reflexivity.
Qed.

Lemma scan_once_string (fuel : nat) (s rest : str) :
  forallb scalar s = true ->
  json.scan_once (S fuel) (34%N :: flat_map json.escape_char s ++ 34%N :: rest)
  = Some (VStr s, rest).
Proof.
  intros H. cbn [json.scan_once N.eqb Pos.eqb]. now rewrite scanstring_escape.
Qed.

Lemma scan_two_strings (fuel : nat) (k1 v1 k2 v2 : str) :
  forallb scalar k1 = true -> forallb scalar v1 = true ->
  forallb scalar k2 = true -> forallb scalar v2 = true ->
  json.scan_once (S (S (S (S fuel)))) (json.two_strings k1 v1 k2 v2)
  = Some (VDict (dict.of_pairs [(k1, VStr v1); (k2, VStr v2)]), []).
Proof.
  intros H1 H2 H3 H4. unfold json.two_strings.
  cbn [json.scan_once N.eqb Pos.eqb json.skip_ws json.is_ws orb].
  cbn [json.object_pairs].
  rewrite scanstring_escape by exact H1.
  cbn [json.skip_ws json.is_ws N.eqb Pos.eqb orb negb].
  rewrite scan_once_string by exact H2.
  cbn [json.skip_ws json.is_ws N.eqb Pos.eqb orb negb].
  rewrite scanstring_escape by exact H3.
  cbn [json.skip_ws json.is_ws N.eqb Pos.eqb orb negb].
  rewrite scan_once_string by exact H4.
  cbn [json.skip_ws json.is_ws N.eqb Pos.eqb orb negb].
  reflexivity.
Qed.

Lemma loads_two_strings (k1 v1 k2 v2 : str) :
  forallb scalar k1 = true -> forallb scalar v1 = true ->
  forallb scalar k2 = true -> forallb scalar v2 = true ->
  PyStr.eqb k1 k2 = false ->
  json.loads (json.dumps (VDict [(k1, VStr v1); (k2, VStr v2)]))
  = Some (VDict [(k1, VStr v1); (k2, VStr v2)]).
Proof.
  intros H1 H2 H3 H4 Hk. rewrite dumps_two_strings. unfold json.loads.
  assert (Hf : exists fuel, S (len (json.two_strings k1 v1 k2 v2)) = S (S (S (S fuel)))).
  { unfold json.two_strings, len. cbn [List.length]. eauto. }
  destruct Hf as [fuel ->].
  replace (json.skip_ws (json.two_strings k1 v1 k2 v2)) with (json.two_strings k1 v1 k2 v2)
    by reflexivity.
  rewrite scan_two_strings by assumption.
  cbn [json.skip_ws]. unfold dict.of_pairs. cbn [fold_left dict.set fst snd].
  rewrite Hk. reflexivity.
Qed.

(** ** Time stamps are plain text *)

Lemma zfill_digits (w : nat) (n : N) :
  forallb is_ascii_digit (datetime.zfill w n) = true.
Proof.
  unfold datetime.zfill, dec. rewrite forallb_app. apply andb_true_iff. split.
  - apply forallb_forall. intros x Hx. apply repeat_spec in Hx. now subst.
  - apply forallb_forall. intros x Hx. apply in_rev in Hx.
    revert x Hx. apply forallb_forall, digits_le_digit.
Qed.

Lemma digits_scalar (s : str) :
  forallb is_ascii_digit s = true -> forallb scalar s = true.
Proof.
  intros H. apply forallb_forall. intros c Hc.
  apply (proj1 (forallb_forall _ _) H) in Hc.
  unfold is_ascii_digit in Hc. apply andb_true_iff in Hc as [_ Hc].
  apply N.leb_le in Hc. unfold scalar. apply orb_true_iff. left.
  apply N.ltb_lt. lia.
Qed.

Lemma isoformat_scalar (d : datetime.t) :
  forallb scalar (datetime.isoformat d) = true.
Proof.
  unfold datetime.isoformat. eval_lit.
  repeat rewrite forallb_app.
  rewrite !(@digits_scalar _ (zfill_digits _ _)).
  destruct (datetime.microsecond d =? 0)%N; [reflexivity|].
  rewrite forallb_app, (@digits_scalar _ (zfill_digits _ _)). reflexivity.
Qed.

(** ** The snapshot store: saving and loading *)

Section Snapshot.

Variable P : platform.
Variable self : manager.

Lemma save_configuration_success (w : world P) (listing : str) (s' : os_state P) :
  spawn P list_command (os w) = (Some (0%Z, listing), s') ->
  save_configuration self w
  = (Ok tt,
     World P s' (calls w ++ [list_command])
       (log w ++ [(INFO, [Text (lit "Configuration saved to "
                                ++ config_file self)])])
       (console w ++ [[Text (lit "Current Firewall Rules:")]; [Text listing]])
       (dict.set (disk w) (config_file self)
          (json.dumps (snapshot_of listing (now P s'))))).
Proof.
  intros Hrun. unfold save_configuration, try_except, bind.
  rewrite (list_current_rules_success self w Hrun). reflexivity.
Qed.


End Snapshot.

(** ** The snapshot store: restoring *)

Section Restore.

Variable P : platform.
Variable self : manager.

(** [restore_configuration] never runs a command and never writes a file,
    whatever the snapshot file holds. *)
Lemma restore_configuration_frame (w : world P) :
  let w' := snd (restore_configuration self w) in
  os w' = os w /\ calls w' = calls w /\ disk w' = disk w.
Proof.
  unfold restore_configuration, try_except2, bind, load_json, bind, read_file.
  cbn beta.
  destruct (dict.get (disk w) (config_file self)) as [text|];
    [destruct (json.loads text) as [config|]; cbn;
     [destruct (subscript config (lit "timestamp")) as [ts|[]]|]|];
    cbn; auto.
Qed.


End Restore.

(** ** The reference platform takes every valid IPv4 descriptor *)

Lemma dec_nonempty (n : N) : ipaddress.is_empty (dec n) = false.
Proof. unfold dec. cbn [digits_le rev]. destruct (rev _); reflexivity. Qed.

Lemma port_text_ok (destination_port : Z) :
  (1 <= destination_port <= 65535)%Z ->
  sim.port_ok (str_of_int destination_port) = true.
Proof.
  intros H. unfold str_of_int.
  destruct (Z.ltb_spec destination_port 0) as [?|_]; [lia|].
  assert (Hn : (Z.to_N destination_port < 10 ^ N.of_nat 5)%N)
    by (change (10 ^ N.of_nat 5)%N with 100000%N; lia).
  set (n := Z.to_N destination_port) in *.
  unfold sim.port_ok. rewrite dec_nonempty.
  unfold dec. set (ds := digits_le _ n).
  assert (Hlen : (len (rev ds) <= 5)%nat)
    by (unfold len; rewrite length_rev; now apply digits_le_len).
  assert (Hd : forallb is_ascii_digit (rev ds) = true).
  { apply forallb_forall. intros x Hx. apply in_rev in Hx.
    revert x Hx. apply forallb_forall, digits_le_digit. }
  assert (Hv : int10 (rev ds) = n) by apply digits_le_val, enough_fuel.
  rewrite Hd, Hv. cbn [negb andb].
  apply andb_true_iff. split; [now apply Nat.leb_le | apply N.leb_le; lia].
Qed.

(** The reference platform takes the append command of every valid
    descriptor with an IPv4 source, whatever its state. *)
Lemma sim_accepts_append (chain source_ip : str) (destination_port : Z)
      (protocol : str) :
  valid_descriptor chain source_ip destination_port protocol ->
  sim.source_ok source_ip = true ->
  always_accepts sim.machine
    (rule_command (lit "-A") chain source_ip destination_port protocol).
Proof.
  intros (Hc & _ & Hp & Hpr) Hs st. unfold rule_command.
  cbn [spawn sim.machine sim.spawn]. 
  change (PyStr.eqb (lit "sudo") (lit "sudo")) with true.
  change (PyStr.eqb (lit "iptables") (lit "iptables")) with true.
  cbn [negb]. unfold sim.iptables.
  change (sim.strs_eqb _ [lit "-L"; lit "-n"; lit "-v"]) with false.
  cbv iota.
  rewrite Hs, (port_text_ok Hp).
  assert (Hk : sim.known_protocol protocol = true).
  { cbn in Hpr. destruct Hpr as [<-|[<-|[]]]; reflexivity. }
  assert (Hb : sim.builtin_chain chain = true).
  { cbn in Hc. destruct Hc as [<-|[<-|[<-|[]]]]; reflexivity. }
  rewrite Hk, Hb. cbn [andb negb].
  change (PyStr.eqb (lit "-A") (lit "-A")) with true. cbv iota.
  eauto.
Qed.

(** ** Runs on the reference platform *)

Section Runs.

Local Abbreviation INPUT := (lit "INPUT").
Local Abbreviation tcp := (lit "tcp").
Local Abbreviation host := (lit "203.0.113.5").

(** The gate on the reference platform: the address ["abc"] is turned down
    before any command. *)
Lemma add_rule_gate_run :
  add_rule sim.self INPUT (lit "abc") 0 tcp sim.boot
  = (Ok false, logged sim.boot ERROR [Text (lit "Invalid IP address: " ++ lit "abc")]).
Proof.
  apply (proj1 (add_rule_gate sim.self INPUT (lit "abc") 0 tcp sim.boot)).
  reflexivity.
Defined.

(** Against C1 as stated: with a valid source address, port 0 and port 65536
    both reach the gateway, once each; port 0 is even reported as added. *)
Lemma out_of_range_port_reaches_gateway :
  fst (add_rule sim.self INPUT host 0 tcp sim.boot) = Ok true
  /\ len (calls (snd (add_rule sim.self INPUT host 0 tcp sim.boot))) = 1
  /\ fst (add_rule sim.self INPUT host 65536 tcp sim.boot) = Ok false
  /\ len (calls (snd (add_rule sim.self INPUT host 65536 tcp sim.boot))) = 1.
Proof. vm_compute. repeat split. Qed.

(** Deleting a rule the reference platform does not hold. *)
Lemma delete_rule_failure_run :
  delete_rule sim.self INPUT host 443 tcp sim.boot
  = (Ok false,
     after_failure sim.boot (sim.tick sim.boot_state)
       (rule_command (lit "-D") INPUT host 443 tcp) "Failed to delete rule: " 1).
Proof.
  apply (delete_rule_failure sim.self INPUT host 443 tcp sim.boot (out := [])).
  - reflexivity.
  - discriminate.
Defined.

(** Against C2 as stated: withdrawing a rule that is not there and
    withdrawing a malformed one end in the same outcome, [False], although
    the engine tells them apart by its exit status. *)
Lemma absent_rule_is_a_plain_failure :
  fst (sim.spawn (rule_command (lit "-D") INPUT host 443 tcp) sim.boot_state)
  = Some (1%Z, [])
  /\ fst (delete_rule sim.self INPUT host 443 tcp sim.boot) = Ok false
  /\ fst (sim.spawn (rule_command (lit "-D") INPUT host 65536 tcp) sim.boot_state)
     = Some (2%Z, [])
  /\ fst (delete_rule sim.self INPUT host 65536 tcp sim.boot) = Ok false.
Proof. vm_compute. repeat split. Qed.

(** C3 on the code: for the source address ["abc"], which [validate_ip]
    rejects and for which [add_rule] runs nothing, [delete_rule] still hands
    its command to the gateway. *)
Theorem delete_rule_skips_validation :
  validate_ip (lit "abc") = false
  /\ calls (snd (add_rule sim.self INPUT (lit "abc") 22 tcp sim.boot)) = []
  /\ calls (snd (delete_rule sim.self INPUT (lit "abc") 22 tcp sim.boot))
     = [rule_command (lit "-D") INPUT (lit "abc") 22 tcp].
Proof. vm_compute. repeat split. Qed.


(** Listing on the platform that refuses every command. *)
Lemma list_current_rules_failure_run :
  list_current_rules sim.self sim.refused
  = (Ok (VList []),
     after_failure sim.refused (sim.tick sim.boot_state) list_command
       "Failed to list rules: " 1).
Proof.
  apply (list_current_rules_failure sim.self sim.refused (out := [])).
  - reflexivity.
  - discriminate.
Defined.

(** Against C9 as stated: a listing that succeeds is a text, a listing that
    fails is the empty list, which is no text. *)
Lemma failed_listing_is_not_a_text :
  fst (list_current_rules sim.self sim.boot) = Ok (VStr [])
  /\ fst (list_current_rules sim.self sim.refused) = Ok (VList [])
  /\ VList [] <> VStr [].
Proof. repeat split; try reflexivity. discriminate. Qed.




(** The example with [\d] taken as the ASCII digits. *)
Lemma summarize_example_run :
  census.summarize is_ascii_digit (census.tcp_line ++ [10%N] ++ census.udp_line)
  = Ok (census.Analysis 2 [lit "22"; lit "53"]
          [(lit "tcp", 1%Z); (lit "udp", 1%Z)])
  /\ (forall line a,
         ~ re.has_addr_port is_ascii_digit line ->
         census.visit is_ascii_digit line a = Ok a).
Proof.
  apply (@summarize_example is_ascii_digit). intros c H. exact H.
Defined.

End Runs.

(** * Further properties *)

(** ** The rule operations on every path *)

Section RuleEngineMore.

Variable P : platform.
Variable self : manager.

Lemma subprocess_run_none (cmd : list str) (w : world P) s' :
  spawn P cmd (os w) = (None, s') ->
  subprocess_run cmd w = (Raise OSError, after_launch_failure w s' cmd).
Proof. intros H. unfold subprocess_run. now rewrite H. Qed.

(** X1: when the source address is an IP literal and the engine takes the
    append command, [add_rule] returns [True], has run that one command, and
    has logged at level INFO and printed the same "Rule Added" line. *)
Theorem add_rule_success (chain source_ip : str) (destination_port : Z)
        (protocol : str) (w : world P) out s' :
  validate_ip source_ip = true ->
  spawn P (rule_command (lit "-A") chain source_ip destination_port protocol)
        (os w) = (Some (0%Z, out), s') ->
  add_rule self chain source_ip destination_port protocol w
  = (Ok true,
     after_rule w s'
       (rule_command (lit "-A") chain source_ip destination_port protocol)
       (rule_message (lit "Rule Added") chain source_ip destination_port protocol)).
Proof.
  intros Hip H. unfold add_rule, try_except, bind. rewrite Hip. cbn [negb].
  rewrite (subprocess_run_exit _ _ H). reflexivity.
Qed.

(** X2: when the source address is an IP literal and the engine turns the
    append command down with a non-zero status, [add_rule] returns [False],
    prints nothing and leaves one error record carrying the status and the
    command. *)
Theorem add_rule_engine_failure (chain source_ip : str) (destination_port : Z)
        (protocol : str) (w : world P) rc out s' :
  validate_ip source_ip = true ->
  spawn P (rule_command (lit "-A") chain source_ip destination_port protocol)
        (os w) = (Some (rc, out), s') ->
  rc <> 0%Z ->
  add_rule self chain source_ip destination_port protocol w
  = (Ok false,
     after_failure w s'
       (rule_command (lit "-A") chain source_ip destination_port protocol)
       "Failed to add rule: " rc).
Proof.
  intros Hip H Hrc. unfold add_rule, try_except, bind. rewrite Hip. cbn [negb].
  rewrite (subprocess_run_exit _ _ H).
  destruct (Z.eqb_spec rc 0) as [->|_]; [contradiction|]. reflexivity.
Qed.

(** X3: when the engine takes the delete command, [delete_rule] returns
    [True], has run that one command, and has logged at level INFO and printed
    the same "Rule Deleted" line. *)
Theorem delete_rule_success (chain source_ip : str) (destination_port : Z)
        (protocol : str) (w : world P) out s' :
  spawn P (rule_command (lit "-D") chain source_ip destination_port protocol)
        (os w) = (Some (0%Z, out), s') ->
  delete_rule self chain source_ip destination_port protocol w
  = (Ok true,
     after_rule w s'
       (rule_command (lit "-D") chain source_ip destination_port protocol)
       (rule_message (lit "Rule Deleted") chain source_ip destination_port protocol)).
Proof.
  intros H. unfold delete_rule, try_except, bind.
  rewrite (subprocess_run_exit _ _ H). reflexivity.
Qed.

(** X4: a command that cannot be launched is no [CalledProcessError]: where
    neither rule command can be launched, the [OSError] escapes from
    [add_rule] and from [delete_rule], with nothing logged and nothing
    printed. *)
Theorem rule_launch_failure_escapes (chain source_ip : str)
        (destination_port : Z) (protocol : str) (w : world P) sa sd :
  validate_ip source_ip = true ->
  spawn P (rule_command (lit "-A") chain source_ip destination_port protocol)
        (os w) = (None, sa) ->
  spawn P (rule_command (lit "-D") chain source_ip destination_port protocol)
        (os w) = (None, sd) ->
  add_rule self chain source_ip destination_port protocol w
  = (Raise OSError,
     after_launch_failure w sa
       (rule_command (lit "-A") chain source_ip destination_port protocol))
  /\ delete_rule self chain source_ip destination_port protocol w
     = (Raise OSError,
        after_launch_failure w sd
          (rule_command (lit "-D") chain source_ip destination_port protocol)).
Proof.
  intros Hip Ha Hd. split.
  - unfold add_rule, try_except, bind. rewrite Hip. cbn [negb].
    rewrite (subprocess_run_none _ _ Ha). reflexivity.
  - unfold delete_rule, try_except, bind.
    rewrite (subprocess_run_none _ _ Hd). reflexivity.
Qed.

(** X5: [__init__] runs the one command [sudo -n true].  When it exits with
    status 0 the manager is built with the given log file and the snapshot
    path [firewall_config.json]; when it exits with another status the
    constructor logs "Insufficient sudo privileges" and raises
    [PermissionError]. *)
Theorem init_checks_sudo (log_file : str) (w : world P) rc out s' :
  spawn P sudo_check (os w) = (Some (rc, out), s') ->
  init log_file w
  = if (rc =? 0)%Z
    then (Ok (Manager log_file (lit "firewall_config.json")),
          World P s' (calls w ++ [sudo_check]) (log w) (console w) (disk w))
    else (Raise PermissionError,
          World P s' (calls w ++ [sudo_check])
                (log w ++ [(ERROR, [Text (lit "Insufficient sudo privileges")])])
                (console w) (disk w)).
Proof.
  intros H. unfold init, check_sudo_privileges, try_except, bind.
  fold sudo_check. rewrite (subprocess_run_exit _ _ H).
  destruct (rc =? 0)%Z; reflexivity.
Qed.

End RuleEngineMore.

(** ** Runs of the rule operations *)

Lemma add_rule_success_run :
  add_rule sim.self (lit "INPUT") (lit "203.0.113.5") 443 (lit "tcp") sim.boot
  = (Ok true,
     after_rule sim.boot
       (sim.State [sim.web_rule] sim.netstat_output 1)
       (rule_command (lit "-A") (lit "INPUT") (lit "203.0.113.5") 443 (lit "tcp"))
       (rule_message (lit "Rule Added") (lit "INPUT") (lit "203.0.113.5") 443
                     (lit "tcp"))).
Proof.
  apply (@add_rule_success sim.machine sim.self (lit "INPUT")
           (lit "203.0.113.5") 443 (lit "tcp") sim.boot []).
  - reflexivity.
  - reflexivity.
Defined.

Lemma add_rule_engine_failure_run :
  add_rule sim.self (lit "WEB") (lit "203.0.113.5") 443 (lit "tcp") sim.boot
  = (Ok false,
     after_failure sim.boot (sim.tick sim.boot_state)
       (rule_command (lit "-A") (lit "WEB") (lit "203.0.113.5") 443 (lit "tcp"))
       "Failed to add rule: " 1).
Proof.
  apply (@add_rule_engine_failure sim.machine sim.self (lit "WEB")
           (lit "203.0.113.5") 443 (lit "tcp") sim.boot 1 []).
  - reflexivity.
  - reflexivity.
  - discriminate.
Defined.

Lemma delete_rule_success_run :
  delete_rule sim.self (lit "INPUT") (lit "203.0.113.5") 443 (lit "tcp") sim.ruled
  = (Ok true,
     after_rule sim.ruled
       (sim.State [] sim.netstat_output 2)
       (rule_command (lit "-D") (lit "INPUT") (lit "203.0.113.5") 443 (lit "tcp"))
       (rule_message (lit "Rule Deleted") (lit "INPUT") (lit "203.0.113.5") 443
                     (lit "tcp"))).
Proof.
  apply (@delete_rule_success sim.machine sim.self (lit "INPUT")
           (lit "203.0.113.5") 443 (lit "tcp") sim.ruled []).
  reflexivity.
Defined.

Lemma rule_launch_failure_escapes_run :
  add_rule sim.self (lit "INPUT") (lit "203.0.113.5") 443 (lit "tcp") lab.stranded
  = (Raise OSError,
     after_launch_failure lab.stranded (sim.tick sim.boot_state)
       (rule_command (lit "-A") (lit "INPUT") (lit "203.0.113.5") 443 (lit "tcp")))
  /\ delete_rule sim.self (lit "INPUT") (lit "203.0.113.5") 443 (lit "tcp")
                 lab.stranded
     = (Raise OSError,
        after_launch_failure lab.stranded (sim.tick sim.boot_state)
          (rule_command (lit "-D") (lit "INPUT") (lit "203.0.113.5") 443 (lit "tcp"))).
Proof.
  apply (@rule_launch_failure_escapes lab.bare sim.self (lit "INPUT")
           (lit "203.0.113.5") 443 (lit "tcp") lab.stranded).
  - reflexivity.
  - reflexivity.
  - reflexivity.
Defined.

Lemma init_checks_sudo_run :
  init (lit "firewall_rules.log") sim.boot
  = (Ok sim.self,
     World sim.machine (sim.tick sim.boot_state) [sudo_check] [] [] []).
Proof.
  apply (@init_checks_sudo sim.machine (lit "firewall_rules.log") sim.boot 0 []).
  reflexivity.
Defined.

(** ** Splitting *)

Lemma split1_count (sep : char) (s : str) :
  len (snd (split1 sep s)) = count_occ N.eq_dec s sep.
Proof.
  unfold len. induction s as [|c s IH]; [reflexivity|].
  cbn [split1 count_occ]. destruct (split1 sep s) as [p ps].
  destruct (N.eqb_spec c sep) as [->|Hne].
  - destruct (N.eq_dec sep sep); [|contradiction]. cbn in *. now rewrite IH.
  - destruct (N.eq_dec c sep); [contradiction|]. exact IH.
Qed.

(** [s.split(sep)] has one piece more than [s] has separators. *)
Lemma split_count (sep : char) (s : str) :
  len (split sep s) = S (count_occ N.eq_dec s sep).
Proof.
  unfold split. pose proof (split1_count sep s) as H.
  destruct (split1 sep s) as [p ps]. unfold len in *. cbn in *. now rewrite H.
Qed.

Lemma split_app (sep : char) (a b : str) :
  split sep (a ++ sep :: b) = split sep a ++ split sep b.
Proof.
  unfold split. induction a as [|c a IH].
  - cbn. destruct (split1 sep b) as [p ps]. now rewrite N.eqb_refl.
  - cbn [app split1]. destruct (split1 sep (a ++ sep :: b)) as [p ps].
    destruct (split1 sep a) as [pa psa]. destruct (split1 sep b) as [pb psb].
    destruct (c =? sep)%N; cbn in *; congruence.
Qed.

Lemma split_pieces (sep : char) (s piece : str) :
  In piece (split sep s) -> mem sep piece = false.
Proof.
  unfold split. revert piece. induction s as [|c s IH]; intros piece.
  - cbn. intros [<-|[]]. reflexivity.
  - cbn [split1]. destruct (split1 sep s) as [p ps].
    destruct (N.eqb_spec c sep) as [->|Hne]; cbn [In].
    + intros [<-|H]; [reflexivity | apply IH; exact H].
    + intros [<-|H].
      * cbn [mem existsb]. rewrite N.eqb_sym.
        destruct (N.eqb_spec c sep); [contradiction|].
        apply (IH p). now left.
      * apply IH. now right.
Qed.

Lemma fields1_tokens (s : str) :
  let (w, ws) := fields1 s in
  forallb (fun c => negb (isspace c)) w = true /\ Forall token ws.
Proof.
  induction s as [|c s IH]; cbn [fields1].
  - split; [reflexivity | constructor].
  - destruct (fields1 s) as [w ws]. destruct IH as [Hw Hws].
    destruct (isspace c) eqn:E.
    + split; [reflexivity|]. destruct w as [|x w]; [exact Hws|].
      constructor; [|exact Hws]. split; [discriminate | exact Hw].
    + split; [|exact Hws]. cbn [forallb]. now rewrite E.
Qed.

(** Every field of [s.split()] is a token. *)
Lemma split_ws_tokens (s : str) : Forall token (split_ws s).
Proof.
  unfold split_ws. pose proof (fields1_tokens s) as H.
  destruct (fields1 s) as [w ws]. destruct H as [Hw Hws].
  destruct w as [|x w]; [exact Hws|].
  constructor; [|exact Hws]. split; [discriminate | exact Hw].
Qed.

(** ** Dictionaries of counts *)

Lemma sum_counts_set (d : list (str * Z)) (k : str) :
  sum_counts (dict.set d k (census.tally d k + 1)%Z) = (sum_counts d + 1)%Z.
Proof.
  unfold census.tally. induction d as [|[k' v'] d IH]; cbn [dict.set dict.get].
  - cbn. lia.
  - destruct (PyStr.eqb k' k); cbn [sum_counts fold_right snd] in *.
    + lia.
    + fold (sum_counts d). fold (sum_counts (dict.set d k
        (match dict.get d k with Some n => n | None => 0 end + 1)%Z)).
      rewrite IH. lia.
Qed.

Lemma keys_set (V : Type) (d : list (str * V)) (k : str) (v : V) (x : str) :
  In x (dict.keys (dict.set d k v)) <-> x = k \/ In x (dict.keys d).
Proof.
  unfold dict.keys. induction d as [|[k' v'] d IH]; cbn [dict.set map fst In].
  - intuition.
  - destruct (PyStr.eqb k' k) eqn:E; cbn [map fst In].
    + apply eqb_eq in E. subst k'. intuition.
    + rewrite IH. intuition.
Qed.

Lemma keys_set_nodup (V : Type) (d : list (str * V)) (k : str) (v : V) :
  NoDup (dict.keys d) -> NoDup (dict.keys (dict.set d k v)).
Proof.
  unfold dict.keys. induction d as [|[k' v'] d IH]; cbn [dict.set map fst].
  - intros _. constructor; [intros [] | constructor].
  - intros H. inversion H as [|? ? Hn Hd]; subst.
    destruct (PyStr.eqb k' k) eqn:E; cbn [map fst].
    + apply eqb_eq in E. subst k'. constructor; assumption.
    + constructor; [|apply IH; exact Hd].
      intros Hin. apply (keys_set d k v k') in Hin as [->|Hin].
      * now rewrite eqb_refl in E.
      * contradiction.
Qed.

(** ** What the census keeps true *)

Section CensusInvariants.

Variable decimal : char -> bool.

Lemma record_line_well_formed (line : str) (a : census.analysis) :
  (4 <= len (split_ws line))%nat ->
  well_formed a -> well_formed (census.record_line line a).
Proof.
  intros Hlen (Hsum & Hnd & Htok & Hcol).
  unfold well_formed, census.record_line.
  cbn [census.connection_protocols census.listening_ports].
  repeat split.
  - rewrite sum_counts_set, Hsum. unfold len. rewrite length_app. cbn. lia.
  - now apply keys_set_nodup.
  - apply Forall_forall. intros x Hx. apply keys_set in Hx as [->|Hx].
    + unfold census.protocol_of.
      pose proof (split_ws_tokens line) as Ht.
      apply (proj1 (Forall_forall _ _) Ht). apply nth_In.
      unfold len in Hlen. lia.
    + exact (proj1 (Forall_forall _ _) Htok x Hx).
  - apply Forall_app. split; [exact Hcol|]. constructor; [|constructor].
    unfold census.port_of. apply (@split_pieces (ch ":") (nth 3 (split_ws line) [])).
    destruct (split_cons (ch ":") (nth 3 (split_ws line) [])) as (p & ps & ->).
    destruct (@exists_last _ (p :: ps) ltac:(discriminate)) as (l' & x & ->).
    rewrite last_last. apply in_or_app. right. now left.
Qed.

Lemma for_each_well_formed (lines : list str) (a a' : census.analysis) :
  census.for_each decimal lines a = Ok a' -> well_formed a -> well_formed a'.
Proof.
  revert a. induction lines as [|line lines IH]; intros a H Hwf.
  - cbn in H. injection H as <-. exact Hwf.
  - cbn [census.for_each] in H. rewrite visit_counted in H.
    apply IH in H; [exact H|].
    destruct (census.counted decimal line) eqn:Hc; [|exact Hwf].
    apply record_line_well_formed; [|exact Hwf].
    unfold census.counted in Hc. apply andb_true_iff in Hc as [_ Hc].
    now apply Nat.leb_le in Hc.
Qed.

Lemma summarize_well_formed (text : str) (a : census.analysis) :
  census.summarize decimal text = Ok a -> well_formed a.
Proof.
  unfold census.summarize. intros H.
  apply for_each_well_formed in H; [exact H|].
  repeat split; cbn; constructor.
Qed.

End CensusInvariants.

Section CensusMore.

Variable decimal : char -> bool.

Lemma summarize_tally (text : str) :
  exists a,
    census.summarize decimal text = Ok a
    /\ census.total_connections a = Z.of_nat (len (split 10%N text))
    /\ census.listening_ports a
       = map census.port_of (filter (census.counted decimal) (split 10%N text))
    /\ forall p, census.tally (census.connection_protocols a) p
                 = census.occurrences p
                     (filter (census.counted decimal) (split 10%N text)).
Proof.
  destruct (for_each_spec decimal (split 10%N text)
              (census.Analysis (Z.of_nat (len (split 10%N text))) [] []))
    as (a & Ha & Ht & Hp & Hd).
  exists a. split; [exact Ha|]. split; [exact Ht|]. split; [exact Hp|].
  intros p. unfold census.tally. rewrite Hd. cbn.
  destruct (Z.eqb_spec (census.occurrences p
              (filter (census.counted decimal) (split 10%N text))) 0);
    [congruence | reflexivity].
Qed.

(** X6: [total_connections] is one more than the number of newline
    characters of the captured text, whatever the lines hold: the empty text
    counts as one connection, and a text that ends in a newline counts the
    empty line after it. *)
Theorem total_connections_counts_newlines (text : str) :
  exists a,
    census.summarize decimal text = Ok a
    /\ census.total_connections a = Z.of_nat (S (newlines text)).
Proof.
  destruct (summarize_tally text) as (a & Ha & Ht & _).
  exists a. split; [exact Ha|]. rewrite Ht. now rewrite split_count.
Qed.

(** X7: the protocol counts add up to the number of listed ports, and there
    are no more ports than lines. *)
Theorem counts_add_up_to_ports (text : str) :
  exists a,
    census.summarize decimal text = Ok a
    /\ sum_counts (census.connection_protocols a)
       = Z.of_nat (len (census.listening_ports a))
    /\ (Z.of_nat (len (census.listening_ports a))
        <= census.total_connections a)%Z.
Proof.
  destruct (summarize_tally text) as (a & Ha & Ht & Hp & _).
  exists a. split; [exact Ha|]. split.
  - apply (summarize_well_formed _ _ Ha).
  - rewrite Ht, Hp. unfold len. rewrite length_map.
    apply inj_le, filter_length_le.
Qed.

(** X8: in the dictionary of protocols no key appears twice and every key is
    a token (not empty, free of white space); no listed port holds a colon. *)
Theorem census_keys_and_ports (text : str) :
  exists a,
    census.summarize decimal text = Ok a
    /\ NoDup (dict.keys (census.connection_protocols a))
    /\ Forall token (dict.keys (census.connection_protocols a))
    /\ Forall (fun p => mem (ch ":") p = false) (census.listening_ports a).
Proof.
  destruct (summarize_tally text) as (a & Ha & _).
  exists a. split; [exact Ha|].
  apply (summarize_well_formed _ _ Ha).
Qed.

Lemma occurrences_app (p : str) (l1 l2 : list str) :
  census.occurrences p (l1 ++ l2)
  = (census.occurrences p l1 + census.occurrences p l2)%Z.
Proof.
  unfold census.occurrences, len. rewrite filter_app, length_app. lia.
Qed.

(** X9: the census works line by line: for two texts joined by a newline
    the totals add up, the ports of the first text come before those of the
    second, and every protocol's count is the sum of its two counts. *)
Theorem census_of_joined_texts (t1 t2 : str) :
  exists a1 a2 a,
    census.summarize decimal t1 = Ok a1
    /\ census.summarize decimal t2 = Ok a2
    /\ census.summarize decimal (t1 ++ 10%N :: t2) = Ok a
    /\ census.total_connections a
       = (census.total_connections a1 + census.total_connections a2)%Z
    /\ census.listening_ports a
       = census.listening_ports a1 ++ census.listening_ports a2
    /\ forall p,
         census.tally (census.connection_protocols a) p
         = (census.tally (census.connection_protocols a1) p
            + census.tally (census.connection_protocols a2) p)%Z.
Proof.
  destruct (summarize_tally t1) as (a1 & H1 & T1 & P1 & D1).
  destruct (summarize_tally t2) as (a2 & H2 & T2 & P2 & D2).
  destruct (summarize_tally (t1 ++ 10%N :: t2)) as (a & H & T & Pp & D).
  exists a1, a2, a. split; [exact H1|]. split; [exact H2|]. split; [exact H|].
  rewrite split_app in T, Pp, D. repeat split.
  - rewrite T, T1, T2. unfold len. rewrite length_app. lia.
  - rewrite Pp, P1, P2, filter_app, map_app. reflexivity.
  - intros p. rewrite D, D1, D2, filter_app. apply occurrences_app.
Qed.

End CensusMore.

Section AnalyzeTrafficMore.

Variable P : platform.
Variable self : manager.


End AnalyzeTrafficMore.


(** ** JSON documents: a string and an empty list *)

Lemma dumps_string_and_empty_list (k1 v1 k2 : str) :
  json.dumps (VDict [(k1, VStr v1); (k2, VList [])])
  = string_and_empty_list k1 v1 k2.
Proof.
  unfold json.dumps, string_and_empty_list.
  cbn [json.encode map fst snd json.join].
  unfold json.encode_basestring_ascii, json.newline_indent. eval_lit.
  cbn [app repeat Nat.mul Nat.add].
  repeat first [rewrite <- app_assoc | progress cbn [app]]. reflexivity.
Qed.

Lemma scan_string_and_empty_list (fuel : nat) (k1 v1 k2 : str) :
  forallb scalar k1 = true -> forallb scalar v1 = true ->
  forallb scalar k2 = true ->
  json.scan_once (S (S (S (S fuel)))) (string_and_empty_list k1 v1 k2)
  = Some (VDict (dict.of_pairs [(k1, VStr v1); (k2, VList [])]), []).
Proof.
  intros H1 H2 H3. unfold string_and_empty_list.
  cbn [json.scan_once N.eqb Pos.eqb json.skip_ws json.is_ws orb].
  cbn [json.object_pairs].
  rewrite scanstring_escape by exact H1.
  cbn [json.skip_ws json.is_ws N.eqb Pos.eqb orb negb].
  rewrite scan_once_string by exact H2.
  cbn [json.skip_ws json.is_ws N.eqb Pos.eqb orb negb].
  rewrite scanstring_escape by exact H3.
  cbn [json.skip_ws json.is_ws N.eqb Pos.eqb orb negb json.scan_once].
  reflexivity.
Qed.

Lemma loads_string_and_empty_list (k1 v1 k2 : str) :
  forallb scalar k1 = true -> forallb scalar v1 = true ->
  forallb scalar k2 = true -> PyStr.eqb k1 k2 = false ->
  json.loads (json.dumps (VDict [(k1, VStr v1); (k2, VList [])]))
  = Some (VDict [(k1, VStr v1); (k2, VList [])]).
Proof.
  intros H1 H2 H3 Hk. rewrite dumps_string_and_empty_list. unfold json.loads.
  assert (Hf : exists fuel,
             S (len (string_and_empty_list k1 v1 k2)) = S (S (S (S fuel)))).
  { unfold string_and_empty_list, len. cbn [List.length]. eauto. }
  destruct Hf as [fuel ->].
  replace (json.skip_ws (string_and_empty_list k1 v1 k2))
    with (string_and_empty_list k1 v1 k2) by reflexivity.
  rewrite scan_string_and_empty_list by assumption.
  cbn [json.skip_ws]. unfold dict.of_pairs. cbn [fold_left dict.set fst snd].
  rewrite Hk. reflexivity.
Qed.

Lemma keys_set_twice (V : Type) (d : list (str * V)) (k : str) (v v' : V) :
  dict.keys (dict.set (dict.set d k v) k v') = dict.keys (dict.set d k v).
Proof.
  unfold dict.keys. induction d as [|[k0 v0] d IH]; cbn [dict.set map fst].
  - now rewrite eqb_refl.
  - destruct (PyStr.eqb k0 k) eqn:E; cbn [dict.set map fst].
    + now rewrite eqb_refl.
    + rewrite E. cbn [map fst]. now rewrite IH.
Qed.

Section SnapshotMore.

Variable P : platform.
Variable self : manager.

(** X11: [save_configuration] never raises, whatever the listing command
    does; it runs that one command and nothing else, and on disk it touches
    no file but the snapshot. *)
Theorem save_configuration_never_raises (w : world P) :
  fst (save_configuration self w) = Ok tt
  /\ calls (snd (save_configuration self w)) = calls w ++ [list_command]
  /\ forall path,
       PyStr.eqb (config_file self) path = false ->
       dict.get (disk (snd (save_configuration self w))) path
       = dict.get (disk w) path.
Proof.
  unfold save_configuration, try_except, bind.
  unfold list_current_rules, try_except, bind. fold list_command.
  unfold subprocess_run.
  destruct (spawn P list_command (os w)) as [[[rc out]|] s'].
  - destruct (rc =? 0)%Z; cbn; (split; [reflexivity|]); (split; [reflexivity|]);
      intros path H; rewrite get_set, H; reflexivity.
  - cbn. auto.
Qed.

(** X12: when the listing command exits with a non-zero status,
    [save_configuration] still writes a snapshot and reports it as saved: the
    log gets the listing error and then the "Configuration saved" record, and
    the file loads back as a dictionary whose [rules] field is the empty
    list. *)
Theorem failed_listing_is_saved_as_empty (w : world P) rc out s' :
  spawn P list_command (os w) = (Some (rc, out), s') ->
  rc <> 0%Z ->
  let w' :=
    World P s' (calls w ++ [list_command])
      (log w
       ++ [(ERROR, [Text (lit "Failed to list rules: ");
                    FmtExn (CalledProcessError rc list_command)]);
           (INFO, [Text (lit "Configuration saved to " ++ config_file self)])])
      (console w)
      (dict.set (disk w) (config_file self)
         (json.dumps (empty_snapshot (now P s')))) in
  save_configuration self w = (Ok tt, w')
  /\ load_json (config_file self) w'
     = (Ok (VDict [(lit "timestamp", VStr (datetime.isoformat (now P s')));
                   (lit "rules", VList [])]), w').
Proof.
  intros H Hrc w'. split.
  - unfold save_configuration, try_except, bind.
    unfold list_current_rules, try_except, bind. fold list_command.
    rewrite (subprocess_run_exit _ _ H).
    destruct (Z.eqb_spec rc 0) as [->|_]; [contradiction|].
    cbn. unfold w'. rewrite <- app_assoc. reflexivity.
  - unfold load_json, bind, read_file, w'. cbn [disk].
    rewrite get_set, eqb_refl. unfold empty_snapshot.
    rewrite loads_string_and_empty_list; try reflexivity.
    apply isoformat_scalar.
Qed.

(** X13: when the listing command cannot be launched, [save_configuration]
    catches the [OSError]: it writes no file and leaves the one record
    "Failed to save configuration". *)
Theorem save_configuration_launch_failure (w : world P) s' :
  spawn P list_command (os w) = (None, s') ->
  save_configuration self w
  = (Ok tt,
     World P s' (calls w ++ [list_command])
       (log w ++ [(ERROR, [Text (lit "Failed to save configuration: ");
                           FmtExn OSError])])
       (console w) (disk w)).
Proof.
  intros H. unfold save_configuration, try_except, bind.
  unfold list_current_rules, try_except, bind. fold list_command.
  unfold subprocess_run. rewrite H. reflexivity.
Qed.

(** X14: the snapshot file is a single slot: a second save replaces what the
    first one wrote and adds no file. *)
Theorem second_save_overwrites (w : world P) (l1 l2 : str) (s1 s2 : os_state P) :
  spawn P list_command (os w) = (Some (0%Z, l1), s1) ->
  spawn P list_command s1 = (Some (0%Z, l2), s2) ->
  let w1 := snd (save_configuration self w) in
  let w2 := snd (save_configuration self w1) in
  dict.get (disk w1) (config_file self)
  = Some (json.dumps (snapshot_of l1 (now P s1)))
  /\ dict.get (disk w2) (config_file self)
     = Some (json.dumps (snapshot_of l2 (now P s2)))
  /\ dict.keys (disk w2) = dict.keys (disk w1).
Proof.
  intros H1 H2 w1 w2. unfold w2, w1.
  erewrite save_configuration_success by exact H1. cbn [snd].
  erewrite save_configuration_success by exact H2. cbn [snd disk].
  rewrite !get_set, !eqb_refl. repeat split. apply keys_set_twice.
Qed.

(** X15: when there is no snapshot file, [restore_configuration] leaves the
    one record "No saved configuration found" and does nothing else. *)
Theorem restore_without_file (w : world P) :
  dict.get (disk w) (config_file self) = None ->
  restore_configuration self w
  = (Ok tt, logged w ERROR [Text (lit "No saved configuration found")]).
Proof.
  intros H. unfold restore_configuration, try_except2, bind, load_json, bind,
    read_file. rewrite H. reflexivity.
Qed.

(** X16: when the snapshot file is no JSON document, [restore_configuration]
    leaves the one record "Configuration restoration failed" with the decoding
    error, and does nothing else. *)
Theorem restore_corrupt_file (w : world P) (text : str) :
  dict.get (disk w) (config_file self) = Some text ->
  json.loads text = None ->
  restore_configuration self w
  = (Ok tt, logged w ERROR [Text (lit "Configuration restoration failed: ");
                            FmtExn JSONDecodeError]).
Proof.
  intros H Hj. unfold restore_configuration, try_except2, bind, load_json, bind,
    read_file. rewrite H, Hj. reflexivity.
Qed.

(** X17: when the snapshot file is a JSON document without a time stamp,
    [restore_configuration] reports a failure and prints nothing: a
    [KeyError] for a dictionary without the key [timestamp], a [TypeError]
    for a document that is no dictionary. *)
Theorem restore_without_timestamp (w : world P) (text : str) (config : value) :
  dict.get (disk w) (config_file self) = Some text ->
  json.loads text = Some config ->
  match config with
  | VDict d => dict.get d (lit "timestamp") = None
  | _ => True
  end ->
  restore_configuration self w
  = (Ok tt,
     logged w ERROR
       [Text (lit "Configuration restoration failed: ");
        FmtExn (match config with
                | VDict _ => KeyError (lit "timestamp")
                | _ => TypeError
                end)]).
Proof.
  intros H Hj Hk. unfold restore_configuration, try_except2, bind, load_json,
    bind, read_file. rewrite H, Hj. cbn [ret lift].
  destruct config; try reflexivity.
  cbn [subscript]. rewrite Hk. reflexivity.
Qed.

(** X18: [restore_configuration] never raises; it runs no command, leaves
    the engine and every file as they were, prints at most one line and
    leaves exactly one log record. *)
Theorem restore_configuration_total (w : world P) :
  let w' := snd (restore_configuration self w) in
  fst (restore_configuration self w) = Ok tt
  /\ os w' = os w /\ calls w' = calls w /\ disk w' = disk w
  /\ (exists record, log w' = log w ++ [record])
  /\ (console w' = console w \/ exists line, console w' = console w ++ [line]).
Proof.
  unfold restore_configuration, try_except2, bind, load_json, bind, read_file.
  cbn beta.
  destruct (dict.get (disk w) (config_file self)) as [text|];
    [destruct (json.loads text) as [config|]; cbn;
     [destruct (subscript config (lit "timestamp")) as [ts|[]]|]|];
    cbn; repeat split; eauto.
Qed.

(** X19: restoring right after a successful save reports the time stamp of
    that save: one printed line "Restoring configuration from" with the
    clock reading the save wrote, and one record at level INFO. *)
Theorem restore_after_save (w : world P) (listing : str) (s' : os_state P) :
  spawn P list_command (os w) = (Some (0%Z, listing), s') ->
  forallb scalar listing = true ->
  let w1 := snd (save_configuration self w) in
  restore_configuration self w1
  = (Ok tt,
     World P (os w1) (calls w1)
       (log w1 ++ [(INFO, [Text (lit "Configuration restored from "
                                 ++ config_file self)])])
       (console w1
        ++ [[Text (lit "Restoring configuration from ");
             FmtValue (VStr (datetime.isoformat (now P s')))]])
       (disk w1)).
Proof.
  intros H Hsc w1. unfold w1.
  erewrite save_configuration_success by exact H. cbn [snd].
  unfold restore_configuration, try_except2, bind, load_json, bind, read_file.
  cbn [disk]. rewrite get_set, eqb_refl. unfold snapshot_of.
  rewrite loads_two_strings; try reflexivity; try assumption.
  apply isoformat_scalar.
Qed.

End SnapshotMore.

(** ** Runs of the snapshot store *)

Lemma failed_listing_is_saved_as_empty_run :
  let w' :=
    World sim.refusing (sim.tick sim.boot_state) [list_command]
      [(ERROR, [Text (lit "Failed to list rules: ");
                FmtExn (CalledProcessError 1 list_command)]);
       (INFO, [Text (lit "Configuration saved to " ++ config_file sim.self)])]
      []
      (dict.set [] (config_file sim.self)
         (json.dumps (empty_snapshot (sim.now (sim.tick sim.boot_state))))) in
  save_configuration sim.self sim.refused = (Ok tt, w')
  /\ load_json (config_file sim.self) w'
     = (Ok (VDict [(lit "timestamp",
                    VStr (datetime.isoformat (sim.now (sim.tick sim.boot_state))));
                   (lit "rules", VList [])]), w').
Proof.
  apply (@failed_listing_is_saved_as_empty sim.refusing sim.self sim.refused 1 []
           (sim.tick sim.boot_state)).
  - reflexivity.
  - discriminate.
Defined.

Lemma save_configuration_launch_failure_run :
  save_configuration sim.self lab.stranded
  = (Ok tt,
     World lab.bare (sim.tick sim.boot_state) [list_command]
       [(ERROR, [Text (lit "Failed to save configuration: "); FmtExn OSError])]
       [] []).
Proof.
  apply (@save_configuration_launch_failure lab.bare sim.self lab.stranded
           (sim.tick sim.boot_state)).
  reflexivity.
Defined.

Lemma second_save_overwrites_run :
  let w1 := snd (save_configuration sim.self sim.ruled) in
  let w2 := snd (save_configuration sim.self w1) in
  dict.get (disk w1) (config_file sim.self)
  = Some (json.dumps (snapshot_of (sim.listing [sim.web_rule])
                                  (sim.now (sim.State [sim.web_rule] sim.netstat_output 2))))
  /\ dict.get (disk w2) (config_file sim.self)
     = Some (json.dumps (snapshot_of (sim.listing [sim.web_rule])
                                     (sim.now (sim.State [sim.web_rule] sim.netstat_output 3))))
  /\ dict.keys (disk w2) = dict.keys (disk w1).
Proof.
  apply (@second_save_overwrites sim.machine sim.self sim.ruled
           (sim.listing [sim.web_rule]) (sim.listing [sim.web_rule])
           (sim.State [sim.web_rule] sim.netstat_output 2)
           (sim.State [sim.web_rule] sim.netstat_output 3)).
  - reflexivity.
  - reflexivity.
Defined.

Lemma restore_without_file_run :
  restore_configuration sim.self sim.boot
  = (Ok tt, logged sim.boot ERROR [Text (lit "No saved configuration found")]).
Proof.
  apply (@restore_without_file sim.machine sim.self sim.boot). reflexivity.
Defined.

Lemma restore_corrupt_file_run :
  restore_configuration sim.self lab_store.corrupt
  = (Ok tt, logged lab_store.corrupt ERROR
              [Text (lit "Configuration restoration failed: ");
               FmtExn JSONDecodeError]).
Proof.
  apply (@restore_corrupt_file sim.machine sim.self lab_store.corrupt (lit "{")).
  - reflexivity.
  - reflexivity.
Defined.

Lemma restore_without_timestamp_run :
  restore_configuration sim.self lab_store.untimed
  = (Ok tt,
     logged lab_store.untimed ERROR
       [Text (lit "Configuration restoration failed: ");
        FmtExn (KeyError (lit "timestamp"))]).
Proof.
  apply (@restore_without_timestamp sim.machine sim.self lab_store.untimed
           (lit "{}") (VDict [])).
  - reflexivity.
  - reflexivity.
  - reflexivity.
Defined.

Lemma restore_after_save_run :
  let w1 := snd (save_configuration sim.self sim.boot) in
  restore_configuration sim.self w1
  = (Ok tt,
     World sim.machine (os w1) (calls w1)
       (log w1 ++ [(INFO, [Text (lit "Configuration restored from "
                                 ++ config_file sim.self)])])
       (console w1
        ++ [[Text (lit "Restoring configuration from ");
             FmtValue (VStr (datetime.isoformat (sim.now (sim.tick sim.boot_state))))]])
       (disk w1)).
Proof.
  apply (@restore_after_save sim.machine sim.self sim.boot []
           (sim.tick sim.boot_state)).
  - reflexivity.
  - reflexivity.
Defined.

(** ** The command line *)

Lemma value_ind_nested (Q : value -> Prop) :
  Q VNone -> (forall b, Q (VBool b)) -> (forall z, Q (VInt z)) ->
  (forall lx, Q (VFloat lx)) -> (forall s, Q (VStr s)) ->
  (forall l, Forall Q l -> Q (VList l)) ->
  (forall d, Forall (fun kv => Q (snd kv)) d -> Q (VDict d)) ->
  forall v, Q v.
Proof.
  intros HN HB HI HF HS HL HD.
  fix IH 1. intros [| b | z | lx | s | l | d];
    [exact HN | apply HB | apply HI | apply HF | apply HS | |].
  - apply HL. induction l as [|v l IHl]; constructor; [apply IH | exact IHl].
  - apply HD. induction d as [|[k v] d IHd]; constructor; [apply IH | exact IHd].
Qed.

(** With an indent of four the general encoder is the encoder of the
    snapshot store. *)
Lemma encode_indent_4 (o : value) (level : nat) :
  json_indent.encode 4 level o = json.encode level o.
Proof.
  revert level.
  induction o as [|b|z|lx|s|l H|d H] using value_ind_nested; intros level;
    try reflexivity.
  - destruct l as [|v l]; [reflexivity|].
    cbn [json_indent.encode json.encode]. f_equal. f_equal. f_equal.
    f_equal. apply map_ext_Forall.
    revert H. apply Forall_impl. auto.
  - destruct d as [|kv d]; [reflexivity|].
    cbn [json_indent.encode json.encode]. f_equal. f_equal. f_equal.
    f_equal. apply map_ext_Forall.
    revert H. apply Forall_impl. intros a Ha. now rewrite Ha.
Qed.

Ltac issued :=
  cbn; eexists _, _; split;
  [reflexivity | cbn; rewrite ?app_nil_r; reflexivity].

Section MainFacts.

Variable P : platform.
Variable int_ : str -> option Z.

Lemma then_ends (A : Type) (m : M P A) (k : A -> Main P) e c1 c2 :
  issues m c1 -> (forall a, ends (k a) e c2) -> ends (then_ m k) e (c1 ++ c2).
Proof.
  intros Hm Hk w. destruct (Hm w) as (a & w1 & E1 & C1).
  destruct (Hk a w1) as (w2 & E2 & C2).
  exists w2. unfold then_. rewrite E1, E2, C2, C1, app_assoc. auto.
Qed.

Lemma when_ends (flag : bool) (m : M P unit) (k : Main P) e c1 c2 :
  (flag = true -> issues m c1) -> ends k e c2 ->
  ends (when_ flag m k) e ((if flag then c1 else []) ++ c2).
Proof.
  intros Hm Hk. unfold when_. destruct flag; [|exact Hk].
  apply then_ends; auto.
Qed.

Lemma ends_now (e : ending) : ends (fun w : world P => (e, w)) e [].
Proof. intros w. exists w. now rewrite app_nil_r. Qed.

Lemma list_current_rules_issues (self : manager) :
  launches P list_command ->
  @issues P _ (discard (list_current_rules self)) [list_command].
Proof.
  intros L w. destruct (L (os w)) as (rc & out & s' & H).
  unfold discard, bind, list_current_rules, try_except, bind.
  fold list_command. rewrite (subprocess_run_exit _ _ H).
  destruct (rc =? 0)%Z; issued.
Qed.

Lemma add_rule_issues (self : manager) chain source_ip destination_port protocol :
  (validate_ip source_ip = true ->
   launches P (rule_command (lit "-A") chain source_ip destination_port protocol)) ->
  @issues P _ (add_rule self chain source_ip destination_port protocol)
         (if validate_ip source_ip
          then [rule_command (lit "-A") chain source_ip destination_port protocol]
          else []).
Proof.
  intros L w. unfold add_rule. destruct (validate_ip source_ip); cbn [negb].
  - destruct (L eq_refl (os w)) as (rc & out & s' & H).
    unfold try_except, bind. rewrite (subprocess_run_exit _ _ H).
    destruct (rc =? 0)%Z; issued.
  - issued.
Qed.

Lemma delete_rule_issues (self : manager) chain source_ip destination_port protocol :
  launches P (rule_command (lit "-D") chain source_ip destination_port protocol) ->
  @issues P _ (delete_rule self chain source_ip destination_port protocol)
         [rule_command (lit "-D") chain source_ip destination_port protocol].
Proof.
  intros L w. destruct (L (os w)) as (rc & out & s' & H).
  unfold delete_rule, try_except, bind. rewrite (subprocess_run_exit _ _ H).
  destruct (rc =? 0)%Z; issued.
Qed.

Lemma analyze_and_print_issues (self : manager) :
  launches P netstat_command ->
  @issues P _ (bind (analyze_traffic self) (fun traffic_analysis =>
          bind (print [Text (lit "Traffic Analysis Results:")]) (fun _ =>
          print [Text (json_indent.dumps 2 traffic_analysis)])))
         [netstat_command].
Proof.
  intros L w. destruct (L (os w)) as (rc & out & s' & H).
  destruct (for_each_spec (decimal P) (split 10%N out)
              (census.Analysis (Z.of_nat (len (split 10%N out))) [] []))
    as (a & Ha & _).
  unfold bind at 1. unfold analyze_traffic, try_except, bind.
  fold netstat_command. rewrite (subprocess_run_exit _ _ H).
  destruct (rc =? 0)%Z.
  - unfold lift, census.summarize. rewrite Ha. issued.
  - issued.
Qed.

Lemma save_configuration_issues (self : manager) :
  launches P list_command ->
  @issues P _ (save_configuration self) [list_command].
Proof.
  intros L w. destruct (L (os w)) as (rc & out & s' & H).
  unfold save_configuration, try_except, bind.
  unfold list_current_rules, try_except, bind. fold list_command.
  rewrite (subprocess_run_exit _ _ H).
  destruct (rc =? 0)%Z; issued.
Qed.

Lemma restore_configuration_issues (self : manager) :
  @issues P _ (restore_configuration self) [].
Proof.
  intros w. unfold restore_configuration, try_except2, bind, load_json, bind,
    read_file. cbn beta.
  destruct (dict.get (disk w) (config_file self)) as [text|];
    [destruct (json.loads text) as [config|]; cbn;
     [destruct (subscript config (lit "timestamp")) as [ts|[]]|]|];
    issued.
Qed.


Lemma with_rule_ends (option : option (str * str * str))
      (method : str -> str -> Z -> M P bool) (k : Main P) e cs c2 :
  port_reads int_ option ->
  (option = None -> cs = []) ->
  (forall chain source_ip port n,
      option = Some (chain, source_ip, port) -> int_ port = Some n ->
      issues (method chain source_ip n) cs) ->
  ends k e c2 ->
  ends (with_rule int_ option method k) e (cs ++ c2).
Proof.
  intros Hp Hn Hm Hk. unfold with_rule.
  destruct option as [[[chain ip] port]|].
  - cbn in Hp. destruct (int_ port) as [n|] eqn:E; [|contradiction].
    apply then_ends; [eapply Hm; eauto | auto].
  - rewrite (Hn eq_refl). exact Hk.
Qed.

Lemma restore_ends (flag : bool) (self : manager) :
  ends (when_ flag (restore_configuration self) (fun w : world P => (Returned, w)))
       Returned [].
Proof.
  unfold when_. destruct flag; [|apply ends_now].
  change (@nil (list str)) with (@nil (list str) ++ []).
  apply then_ends; [apply restore_configuration_issues|].
  intros _. apply ends_now.
Qed.

Lemma init_granted (log_file : str) (w : world P) out s' :
  spawn P sudo_check (os w) = (Some (0%Z, out), s') ->
  init log_file w
  = (Ok (Manager log_file (lit "firewall_config.json")),
     World P s' (calls w ++ [sudo_check]) (log w) (console w) (disk w)).
Proof.
  intros H. unfold init, check_sudo_privileges, try_except, bind.
  fold sudo_check. now rewrite (subprocess_run_exit _ _ H).
Qed.

Lemma main_on_linux (w : world P) out s' e cs
      (k : manager -> Main P) :
  spawn P sudo_check (os w) = (Some (0%Z, out), s') ->
  (forall self, ends (k self) e cs) ->
  exists w',
    then_ (init (lit "firewall_rules.log")) k w = (e, w')
    /\ calls w' = calls w ++ sudo_check :: cs.
Proof.
  intros H Hk. unfold then_. rewrite (init_granted _ _ H).
  destruct (Hk (Manager (lit "firewall_rules.log") (lit "firewall_config.json"))
               (World P s' (calls w ++ [sudo_check]) (log w) (console w) (disk w)))
    as (w' & E & C).
  exists w'. split; [exact E|]. rewrite C. cbn. now rewrite <- app_assoc.
Qed.

Lemma requested_add_issues (self : manager) (args : namespace) :
  (forall cmd, In cmd (requested_add int_ args) -> launches P cmd) ->
  forall chain source_ip port n,
    args_add args = Some (chain, source_ip, port) -> int_ port = Some n ->
    @issues P _ (add_rule self chain source_ip n (lit "tcp"))
            (requested_add int_ args).
Proof.
  intros L chain ip port n E En. unfold requested_add in *.
  rewrite E, En in *. apply add_rule_issues.
  intros Hip. rewrite Hip in L. apply L. now left.
Qed.

Lemma requested_delete_issues (self : manager) (args : namespace) :
  (forall cmd, In cmd (requested_delete int_ args) -> launches P cmd) ->
  forall chain source_ip port n,
    args_delete args = Some (chain, source_ip, port) -> int_ port = Some n ->
    @issues P _ (delete_rule self chain source_ip n (lit "tcp"))
            (requested_delete int_ args).
Proof.
  intros L chain ip port n E En. unfold requested_delete in *.
  rewrite E, En in *. apply delete_rule_issues. apply L. now left.
Qed.

(** X20: off Linux, [main] prints its one line and leaves with
    [SystemExit(1)]: no option is looked at, no manager is built, no command
    is run and nothing is logged or written. *)
Theorem main_off_linux (sys_platform : str) (args : namespace) (w : world P) :
  sys_platform <> lit "linux" ->
  main int_ sys_platform args w
  = (SystemExit 1,
     World P (os w) (calls w) (log w)
           (console w
            ++ [[Text (lit "Error: This script is designed for Linux systems with iptables.")]])
           (disk w)).
Proof.
  intros H. unfold main.
  destruct (PyStr.eqb sys_platform (lit "linux")) eqn:E.
  - apply eqb_eq in E. contradiction.
  - reflexivity.
Qed.

(** X21: on Linux, when [sudo -n true] exits with a non-zero status, [main]
    is left by the [PermissionError] of the constructor whatever the options
    are: the check is the only command run, and no option is acted on. *)
Theorem main_without_sudo (args : namespace) (w : world P) rc out s' :
  spawn P sudo_check (os w) = (Some (rc, out), s') ->
  rc <> 0%Z ->
  main int_ (lit "linux") args w
  = (Uncaught PermissionError,
     World P s' (calls w ++ [sudo_check])
           (log w ++ [(ERROR, [Text (lit "Insufficient sudo privileges")])])
           (console w) (disk w)).
Proof.
  intros H Hrc. unfold main. rewrite eqb_refl. cbn [negb].
  unfold then_, init, check_sudo_privileges, try_except, bind.
  fold sudo_check. rewrite (subprocess_run_exit _ _ H).
  destruct (Z.eqb_spec rc 0) as [->|_]; [contradiction|]. reflexivity.
Qed.

(** X22: on Linux with [sudo] granted, [main] acts on every option given, in
    the fixed order list, add, delete, analyze, save, restore, whatever the
    order on the command line and whatever status each command exits with: a
    failed operation stops none of the later ones.  The commands run are the
    check of [sudo] and then the planned ones; [main] returns. *)
Theorem main_runs_every_request (args : namespace) (w : world P) out s' :
  spawn P sudo_check (os w) = (Some (0%Z, out), s') ->
  (forall cmd, In cmd (planned int_ args) -> launches P cmd) ->
  port_reads int_ (args_add args) ->
  port_reads int_ (args_delete args) ->
  exists w',
    main int_ (lit "linux") args w = (Returned, w')
    /\ calls w' = calls w ++ sudo_check :: planned int_ args.
Proof.
  intros H L Ha Hd. unfold main. rewrite eqb_refl. cbn [negb].
  eapply main_on_linux; [exact H|]. intros self. unfold planned.
  assert (Ll : forall cmd, In cmd (requested_list args) -> launches P cmd)
    by (intros; apply L; unfold planned; rewrite !in_app_iff; auto).
  assert (La : forall cmd, In cmd (requested_add int_ args) -> launches P cmd)
    by (intros; apply L; unfold planned; rewrite !in_app_iff; auto).
  assert (Ld : forall cmd, In cmd (requested_delete int_ args) -> launches P cmd)
    by (intros; apply L; unfold planned; rewrite !in_app_iff; auto).
  assert (Lz : forall cmd, In cmd (requested_analyze args) -> launches P cmd)
    by (intros; apply L; unfold planned; rewrite !in_app_iff; auto).
  assert (Ls : forall cmd, In cmd (requested_save args) -> launches P cmd)
    by (intros; apply L; unfold planned; rewrite !in_app_iff; auto).
  unfold requested_list at 1.
  apply when_ends.
  { intros F. apply list_current_rules_issues. apply Ll.
    unfold requested_list. rewrite F. now left. }
  apply with_rule_ends; [exact Ha | | apply requested_add_issues; exact La |].
  { intros E. unfold requested_add. now rewrite E. }
  apply with_rule_ends; [exact Hd | | apply requested_delete_issues; exact Ld |].
  { intros E. unfold requested_delete. now rewrite E. }
  unfold requested_analyze at 1.
  apply when_ends.
  { intros F. apply analyze_and_print_issues. apply Lz.
    unfold requested_analyze. rewrite F. now left. }
  rewrite <- (app_nil_r (requested_save args)). unfold requested_save at 1.
  apply when_ends.
  { intros F. apply save_configuration_issues. apply Ls.
    unfold requested_save. rewrite F. now left. }
  apply restore_ends.
Qed.

(** X23: when the port text of [--add] does not read as a number, [main] is
    left by the [ValueError] of [int]: the listing has been run if it was
    asked for, and nothing else is, neither the deletion nor the analysis, the
    saving or the restoring that the same command line asks for. *)
Theorem main_unreadable_add_port (args : namespace) (w : world P) out s'
        (chain source_ip port : str) :
  spawn P sudo_check (os w) = (Some (0%Z, out), s') ->
  args_add args = Some (chain, source_ip, port) ->
  int_ port = None ->
  (forall cmd, In cmd (requested_list args) -> launches P cmd) ->
  exists w',
    main int_ (lit "linux") args w = (ValueError port, w')
    /\ calls w' = calls w ++ sudo_check :: requested_list args.
Proof.
  intros H E En Ll. unfold main. rewrite eqb_refl. cbn [negb].
  eapply main_on_linux; [exact H|]. intros self.
  rewrite <- (app_nil_r (requested_list args)). unfold requested_list at 1.
  apply when_ends.
  { intros F. apply list_current_rules_issues. apply Ll.
    unfold requested_list. rewrite F. now left. }
  unfold with_rule at 1. rewrite E, En. apply ends_now.
Qed.

(** X24: when the port text of [--delete] does not read as a number while
    that of [--add] does, the rule of [--add] has already been handed to the
    engine when [main] is left by the [ValueError]: the command line is
    applied in part, and the analysis, the saving and the restoring it asks
    for are not run. *)
Theorem main_unreadable_delete_port (args : namespace) (w : world P) out s'
        (chain source_ip port : str) :
  spawn P sudo_check (os w) = (Some (0%Z, out), s') ->
  port_reads int_ (args_add args) ->
  args_delete args = Some (chain, source_ip, port) ->
  int_ port = None ->
  (forall cmd, In cmd (requested_list args ++ requested_add int_ args) ->
               launches P cmd) ->
  exists w',
    main int_ (lit "linux") args w = (ValueError port, w')
    /\ calls w' = calls w ++ sudo_check :: requested_list args
                                        ++ requested_add int_ args.
Proof.
  intros H Ha E En L. unfold main. rewrite eqb_refl. cbn [negb].
  eapply main_on_linux; [exact H|]. intros self.
  unfold requested_list at 1.
  apply when_ends.
  { intros F. apply list_current_rules_issues. apply L.
    rewrite in_app_iff. left. unfold requested_list. rewrite F. now left. }
  rewrite <- (app_nil_r (requested_add int_ args)).
  apply with_rule_ends; [exact Ha | | apply requested_add_issues |].
  { intros E'. unfold requested_add. now rewrite E'. }
  { intros cmd Hc. apply L. rewrite in_app_iff. now right. }
  unfold with_rule at 1. rewrite E, En. apply ends_now.
Qed.

(** X25: with [--analyze] alone, when the socket listing exits with a
    non-zero status, [main] still prints the header of the results and, under
    it, the empty object [{}]; it returns normally, the failure being visible
    in the log only. *)
Theorem main_analyze_failure (w : world P) out s1 rc out' s2 :
  spawn P sudo_check (os w) = (Some (0%Z, out), s1) ->
  spawn P netstat_command s1 = (Some (rc, out'), s2) ->
  rc <> 0%Z ->
  main int_ (lit "linux") (Namespace false None None true false false) w
  = (Returned,
     World P s2 (calls w ++ [sudo_check; netstat_command])
           (log w ++ [(ERROR, [Text (lit "Traffic analysis failed: ");
                               FmtExn (CalledProcessError rc netstat_command)])])
           (console w ++ [[Text (lit "Traffic Analysis Results:")];
                          [Text (lit "{}")]])
           (disk w)).
Proof.
  intros H Hn Hrc. unfold main. rewrite eqb_refl. cbn [negb].
  unfold then_ at 1. rewrite (init_granted _ _ H).
  cbn [args_list args_add args_delete args_analyze args_save args_restore
       when_ with_rule].
  unfold then_, analyze_traffic, try_except, bind.
  fold netstat_command.
  rewrite (@subprocess_run_exit P netstat_command
             (World P s1 (calls w ++ [sudo_check]) (log w) (console w) (disk w))
             rc out' s2 Hn).
  destruct (Z.eqb_spec rc 0) as [->|_]; [contradiction|].
  cbn. rewrite <- !app_assoc. reflexivity.
Qed.

End MainFacts.

(** ** Runs of [main] on the reference platform *)

Ltac launched :=
  intros s; do 3 eexists; vm_compute; reflexivity.

Lemma main_off_linux_run :
  main lab_main.int_digits (lit "darwin") lab_main.every_option sim.boot
  = (SystemExit 1,
     World sim.machine sim.boot_state [] []
           [[Text (lit "Error: This script is designed for Linux systems with iptables.")]]
           []).
Proof.
  apply (main_off_linux lab_main.int_digits (sys_platform := lit "darwin")
           lab_main.every_option sim.boot).
  discriminate.
Defined.

Lemma main_without_sudo_run :
  main lab_main.int_digits (lit "linux") lab_main.every_option sim.refused
  = (Uncaught PermissionError,
     World sim.refusing (sim.tick sim.boot_state) [sudo_check]
           [(ERROR, [Text (lit "Insufficient sudo privileges")])] [] []).
Proof.
  apply (main_without_sudo lab_main.int_digits lab_main.every_option
           sim.refused (rc := 1) (out := [])).
  - reflexivity.
  - discriminate.
Defined.

Lemma main_runs_every_request_run :
  exists w',
    main lab_main.int_digits (lit "linux") lab_main.every_option sim.boot
    = (Returned, w')
    /\ calls w'
       = [sudo_check; list_command;
          rule_command (lit "-A") (lit "INPUT") (lit "203.0.113.5") 443 (lit "tcp");
          rule_command (lit "-D") (lit "INPUT") (lit "203.0.113.5") 443 (lit "tcp");
          netstat_command; list_command].
Proof.
  apply (main_runs_every_request lab_main.int_digits lab_main.every_option
           sim.boot (out := []) (s' := sim.tick sim.boot_state)).
  - reflexivity.
  - intros cmd Hc. vm_compute in Hc.
    destruct Hc as [<-|[<-|[<-|[<-|[<-|[]]]]]]; intros s;
      try (do 3 eexists; vm_compute; reflexivity).
    destruct (sim.remove_first sim.web_rule (sim.table s)) as [t|] eqn:E;
      do 3 eexists; vm_compute; vm_compute in E; rewrite E; reflexivity.
  - discriminate.
  - discriminate.
Defined.

Lemma main_unreadable_add_port_run :
  exists w',
    main lab_main.int_digits (lit "linux") lab_main.add_http sim.boot
    = (ValueError (lit "http"), w')
    /\ calls w' = [sudo_check; list_command].
Proof.
  apply (main_unreadable_add_port lab_main.int_digits lab_main.add_http
           sim.boot (out := []) (s' := sim.tick sim.boot_state)
           (chain := lit "INPUT") (source_ip := lit "203.0.113.5")).
  - reflexivity.
  - reflexivity.
  - reflexivity.
  - intros cmd Hc. vm_compute in Hc. destruct Hc as [<-|[]]. launched.
Defined.

Lemma main_unreadable_delete_port_run :
  exists w',
    main lab_main.int_digits (lit "linux") lab_main.delete_http sim.boot
    = (ValueError (lit "http"), w')
    /\ calls w'
       = [sudo_check; list_command;
          rule_command (lit "-A") (lit "INPUT") (lit "203.0.113.5") 443 (lit "tcp")].
Proof.
  apply (main_unreadable_delete_port lab_main.int_digits lab_main.delete_http
           sim.boot (out := []) (s' := sim.tick sim.boot_state)
           (chain := lit "INPUT") (source_ip := lit "203.0.113.5")).
  - reflexivity.
  - discriminate.
  - reflexivity.
  - reflexivity.
  - intros cmd Hc. vm_compute in Hc. destruct Hc as [<-|[<-|[]]]; launched.
Defined.

Lemma main_analyze_failure_run :
  main lab_main.int_digits (lit "linux") lab_main.analyze_only lab_main.booted
  = (Returned,
     World lab_main.without_netstat (sim.tick (sim.tick sim.boot_state))
           [sudo_check; netstat_command]
           [(ERROR, [Text (lit "Traffic analysis failed: ");
                     FmtExn (CalledProcessError 1 netstat_command)])]
           [[Text (lit "Traffic Analysis Results:")]; [Text (lit "{}")]]
           []).
Proof.
  apply (main_analyze_failure lab_main.int_digits lab_main.booted
           (out := []) (s1 := sim.tick sim.boot_state) (rc := 1) (out' := [])).
  - reflexivity.
  - reflexivity.
  - discriminate.
Defined.

(** ** Addresses *)

Lemma octet_value (a : N) : (a < 256)%N -> In a octet_values.
Proof.
  intros H. unfold octet_values. rewrite <- (N2Nat.id a).
  apply in_map, in_seq. lia.
Qed.

Lemma ascii_digit (c : char) : is_ascii_digit c = true -> In c ascii_digits.
Proof.
  unfold is_ascii_digit. rewrite andb_true_iff, !N.leb_le. intros [H1 H2].
  unfold ascii_digits. rewrite <- (N2Nat.id c). apply in_map, in_seq. lia.
Qed.

Lemma short_numeral (o : str) :
  o <> [] -> forallb is_ascii_digit o = true -> (len o <= 3)%nat ->
  In o short_numerals.
Proof.
  intros Hne Hd Hl. unfold short_numerals. rewrite !in_app_iff.
  destruct o as [|c1 [|c2 [|c3 [|c4 o]]]]; [contradiction| | | |cbn in Hl; lia];
    cbn [forallb] in Hd; rewrite ?andb_true_iff in Hd.
  - left. apply (in_map (fun c => [c])), ascii_digit, Hd.
  - right; left. apply in_flat_map. exists c1. split; [apply ascii_digit, Hd|].
    apply (in_map (fun c => [c1; c])), ascii_digit, Hd.
  - right; right. apply in_flat_map. exists c1. split; [apply ascii_digit, Hd|].
    apply in_flat_map. exists c2. split; [apply ascii_digit, Hd|].
    apply (in_map (fun c => [c1; c2; c])), ascii_digit, Hd.
Qed.

(** An octet is read back from the way [str] writes it. *)
Lemma parse_octet_dec (a : N) :
  (a < 256)%N ->
  ipaddress.parse_octet (dec a) = Some a
  /\ mem (ch ".") (dec a) = false /\ mem (ch "/") (dec a) = false.
Proof.
  intros H. apply octet_value in H. revert a H. apply Forall_forall.
  apply Forall_forall. intros a Ha.
  assert (C : forallb (fun a =>
                match ipaddress.parse_octet (dec a) with
                | Some n => N.eqb n a
                | None => false
                end && negb (mem (ch ".") (dec a)) && negb (mem (ch "/") (dec a)))
              octet_values = true) by (vm_compute; reflexivity).
  rewrite forallb_forall in C. specialize (C a Ha).
  rewrite !andb_true_iff, !negb_true_iff in C. destruct C as [[C1 C2] C3].
  destruct (ipaddress.parse_octet (dec a)) as [n|]; [|discriminate].
  apply N.eqb_eq in C1. subst n. auto.
Qed.

(** What [_parse_octet] takes is the way [str] writes the number it gives. *)
Lemma parse_octet_canonical (o : str) (n : N) :
  ipaddress.parse_octet o = Some n -> o = dec n /\ (n < 256)%N.
Proof.
  intros H.
  assert (Hin : In o short_numerals).
  { unfold ipaddress.parse_octet in H. destruct o as [|c o']; [discriminate|].
    destruct (forallb is_ascii_digit (c :: o')) eqn:Ed; [|discriminate].
    cbn [negb] in H.
    destruct (3 <? len (c :: o'))%nat eqn:El; [discriminate|].
    apply Nat.ltb_ge in El.
    apply short_numeral; [discriminate | exact Ed | exact El]. }
  assert (C : forallb (fun o =>
                match ipaddress.parse_octet o with
                | Some n => PyStr.eqb o (dec n) && (n <? 256)%N
                | None => true
                end) short_numerals = true) by (vm_compute; reflexivity).
  rewrite forallb_forall in C. specialize (C o Hin). rewrite H in C.
  apply andb_true_iff in C. destruct C as [C1 C2].
  apply eqb_eq in C1. apply N.ltb_lt in C2. auto.
Qed.

Lemma mem_app (c : char) (a b : str) : mem c (a ++ b) = mem c a || mem c b.
Proof. unfold mem. apply existsb_app. Qed.

Lemma split_whole (sep : char) (s : str) :
  mem sep s = false -> split sep s = [s].
Proof.
  unfold split, mem. induction s as [|c s IH]; [reflexivity|].
  cbn [existsb split1]. rewrite orb_false_iff. intros [Hc Hs].
  specialize (IH Hs). destruct (split1 sep s) as [p ps].
  rewrite N.eqb_sym, Hc. congruence.
Qed.

(** Joining the pieces of [s.split(sep)] with [sep] gives [s] back. *)
Lemma join_split (sep : char) (s : str) :
  json.join [sep] (split sep s) = s.
Proof.
  unfold split. induction s as [|c s IH]; [reflexivity|].
  cbn [split1]. destruct (split1 sep s) as [p ps].
  destruct (N.eqb_spec c sep) as [->|_].
  - change (json.join [sep] ([] :: p :: ps))
      with ([] ++ [sep] ++ json.join [sep] (p :: ps)).
    now rewrite IH.
  - destruct ps as [|q ps].
    + cbn [json.join] in *. now rewrite IH.
    + change (json.join [sep] ((c :: p) :: q :: ps))
        with (c :: json.join [sep] (p :: q :: ps)).
      now rewrite IH.
Qed.

(** A text and its first piece: the piece holds no character the text does
    not hold. *)
Lemma split_head (sep c : char) (s p : str) (ps : list str) :
  split sep s = p :: ps -> mem c s = false -> mem c p = false.
Proof.
  intros H Hs. pose proof (join_split sep s) as J. rewrite H in J.
  rewrite <- J in Hs. destruct ps as [|q ps]; cbn [json.join] in Hs.
  - exact Hs.
  - rewrite mem_app in Hs. now apply orb_false_iff in Hs.
Qed.

Lemma split_dotted_quad (a b c d : N) :
  (a < 256)%N -> (b < 256)%N -> (c < 256)%N -> (d < 256)%N ->
  split (ch ".") (dotted_quad a b c d) = [dec a; dec b; dec c; dec d].
Proof.
  intros Ha Hb Hc Hd. unfold dotted_quad.
  destruct (parse_octet_dec Ha) as (_ & Da & _).
  destruct (parse_octet_dec Hb) as (_ & Db & _).
  destruct (parse_octet_dec Hc) as (_ & Dc & _).
  destruct (parse_octet_dec Hd) as (_ & Dd & _).
  rewrite !split_app, !split_whole by assumption. reflexivity.
Qed.

(** The IPv6 parser takes no text without a colon. *)
Lemma IPv6Address_colon (ip : str) :
  mem (ch ":") ip = false -> ipaddress.IPv6Address ip = None.
Proof.
  intros H. unfold ipaddress.IPv6Address.
  destruct (mem (ch "/") ip); [reflexivity|].
  unfold ipaddress.split_scope_id.
  destruct (split (ch "%") ip) as [|addr [|scope_id [|x rest]]] eqn:E;
    try reflexivity.
  - pose proof (@split_head _ (ch ":") _ _ _ E H) as Ha.
    unfold ipaddress.ipv6_int_from_string.
    destruct addr as [|x addr]; [reflexivity|].
    rewrite (@split_whole _ _ Ha). reflexivity.
  - destruct scope_id as [|y scope_id]; [reflexivity|].
    pose proof (@split_head _ (ch ":") _ _ _ E H) as Ha.
    unfold ipaddress.ipv6_int_from_string.
    destruct addr as [|x addr]; [reflexivity|].
    rewrite (@split_whole _ _ Ha). reflexivity.
Qed.

Lemma parse_octets_four (o1 o2 o3 o4 : str) (ns : list N) :
  ipaddress.parse_octets [o1; o2; o3; o4] = Some ns ->
  exists a b c d,
    ipaddress.parse_octet o1 = Some a /\ ipaddress.parse_octet o2 = Some b
    /\ ipaddress.parse_octet o3 = Some c /\ ipaddress.parse_octet o4 = Some d.
Proof.
  cbn [ipaddress.parse_octets].
  destruct (ipaddress.parse_octet o1) as [a|]; [|discriminate].
  destruct (ipaddress.parse_octet o2) as [b|]; [|discriminate].
  destruct (ipaddress.parse_octet o3) as [c|]; [|discriminate].
  destruct (ipaddress.parse_octet o4) as [d|]; [|discriminate].
  intros _. now exists a, b, c, d.
Qed.

Lemma ip_address_dotted_quad (a b c d : N) :
  (a < 256)%N -> (b < 256)%N -> (c < 256)%N -> (d < 256)%N ->
  ipaddress.ip_address (dotted_quad a b c d)
  = Some (ipaddress.V4 (((a * 256 + b) * 256 + c) * 256 + d)).
Proof.
  intros Ha Hb Hc Hd. unfold ipaddress.ip_address, ipaddress.IPv4Address.
  destruct (parse_octet_dec Ha) as (Pa & _ & Sa).
  destruct (parse_octet_dec Hb) as (Pb & _ & Sb).
  destruct (parse_octet_dec Hc) as (Pc & _ & Sc).
  destruct (parse_octet_dec Hd) as (Pd & _ & Sd).
  assert (Hs : mem (ch "/") (dotted_quad a b c d) = false).
  { unfold dotted_quad, mem in *.
    repeat (rewrite existsb_app; cbn [existsb]).
    cbv [char str] in *. rewrite Sa, Sb, Sc, Sd. reflexivity. }
  rewrite Hs. unfold ipaddress.ipv4_int_from_string.
  rewrite (split_dotted_quad Ha Hb Hc Hd).
  destruct (dotted_quad a b c d) eqn:E.
  - unfold dotted_quad in E. apply app_eq_nil in E. destruct E; discriminate.
  - cbn [len List.length Nat.eqb negb ipaddress.parse_octets].
    rewrite Pa, Pb, Pc, Pd. cbn. reflexivity.
Qed.

(** X26: among the texts without a colon, [validate_ip] accepts the dotted
    quads of four numbers below 256, each written as [str] writes it (no
    sign, no leading zero, no blank), and nothing else. *)
Theorem validate_ip_dotted_quads (ip : str) :
  mem (ch ":") ip = false ->
  validate_ip ip = true
  <-> exists a b c d,
        (a < 256 /\ b < 256 /\ c < 256 /\ d < 256)%N
        /\ ip = dotted_quad a b c d.
Proof.
  intros Hcolon. split.
  - unfold validate_ip, ipaddress.ip_address.
    rewrite (IPv6Address_colon _ Hcolon).
    destruct (ipaddress.IPv4Address ip) as [n|] eqn:E; [intros _|discriminate].
    unfold ipaddress.IPv4Address in E.
    destruct (mem (ch "/") ip); [discriminate|].
    unfold ipaddress.ipv4_int_from_string in E.
    destruct ip as [|x ip']; [discriminate|].
    pose proof (join_split (ch ".") (x :: ip')) as J.
    destruct (split (ch ".") (x :: ip')) as [|o1 [|o2 [|o3 [|o4 [|o5 os]]]]];
      try discriminate.
    cbn [len List.length Nat.eqb negb] in E.
    destruct (ipaddress.parse_octets [o1; o2; o3; o4]) as [ns|] eqn:Eo;
      [|discriminate].
    destruct (parse_octets_four _ _ _ _ Eo) as (a & b & c & d & Pa & Pb & Pc & Pd).
    destruct (parse_octet_canonical _ Pa) as [-> Ha].
    destruct (parse_octet_canonical _ Pb) as [-> Hb].
    destruct (parse_octet_canonical _ Pc) as [-> Hc].
    destruct (parse_octet_canonical _ Pd) as [-> Hd].
    exists a, b, c, d. split; [auto|]. rewrite <- J. unfold dotted_quad.
    reflexivity.
  - intros (a & b & c & d & (Ha & Hb & Hc & Hd) & ->).
    unfold validate_ip. now rewrite ip_address_dotted_quad.
Qed.

Lemma validate_ip_dotted_quads_run :
  validate_ip (lit "203.0.113.5") = true
  <-> exists a b c d,
        (a < 256 /\ b < 256 /\ c < 256 /\ d < 256)%N
        /\ lit "203.0.113.5" = dotted_quad a b c d.
Proof.
  apply (validate_ip_dotted_quads (lit "203.0.113.5")). reflexivity.
Defined.

Section Networks.

Variable P : platform.
Variable self : manager.

(** X27: a source in CIDR notation, which [iptables -s] takes, never reaches
    the engine: a text with a slash is no address for [validate_ip], so
    [add_rule] returns [False] with the one error record and runs nothing. *)
Theorem add_rule_refuses_networks (chain source_ip : str)
        (destination_port : Z) (protocol : str) (w : world P) :
  mem (ch "/") source_ip = true ->
  validate_ip source_ip = false
  /\ add_rule self chain source_ip destination_port protocol w
     = (Ok false,
        logged w ERROR [Text (lit "Invalid IP address: " ++ source_ip)]).
Proof.
  intros H.
  assert (V : validate_ip source_ip = false).
  { unfold validate_ip, ipaddress.ip_address, ipaddress.IPv4Address,
      ipaddress.IPv6Address. now rewrite H. }
  split; [exact V|]. unfold add_rule. rewrite V. reflexivity.
Qed.

End Networks.

Lemma add_rule_refuses_networks_run :
  validate_ip (lit "10.0.0.0/8") = false
  /\ add_rule sim.self (lit "INPUT") (lit "10.0.0.0/8") 22 (lit "tcp") sim.boot
     = (Ok false,
        logged sim.boot ERROR
               [Text (lit "Invalid IP address: " ++ lit "10.0.0.0/8")]).
Proof.
  apply (@add_rule_refuses_networks sim.machine sim.self (lit "INPUT")
           (lit "10.0.0.0/8") 22 (lit "tcp") sim.boot).
  reflexivity.
Defined.
